(** * go-fluentd-logger-poc: the observability package, embedded and verified

    The package [internal/observability] exists in two variants:
    - the atomic-flag variant ([SugaredLogger] over a [FluentLogger] whose
      [closed] field is an [atomic.Bool]), module [Atomic] below;
    - the mutex variant ([WrappedLogger] over a [FluentLogger] guarded by a
      [sync.Mutex]), module [Mutex] below.

    Calls are embedded as state transformers over the objects the Go
    pointers designate.  The calls of one handle are taken one after the
    other (every call is one step); the only code that runs beside a call is
    the goroutine started by the atomic variant's [Sync], which is kept in
    the world as a running goroutine. *)

From Stdlib Require Import ZArith NArith List String Ascii Bool Lia.
From Stdlib.Strings Require Byte.
Import ListNotations.

Local Open Scope Z_scope.
Local Open Scope string_scope.

Set Implicit Arguments.

(** ** Go errors *)

(** [errors.New(msg)] and [fmt.Errorf(msg + ": %w", inner)].  Errors coming
    out of the libraries (encoding/json, fluent-logger-golang, zap) are
    values of the same type. *)
Inductive error : Type :=
| errors_New (msg : string)
| fmt_Errorf (msg : string) (inner : error).

(** [errors.Unwrap]. *)
Definition errors_Unwrap (e : error) : option error :=
  match e with
  | errors_New _ => None
  | fmt_Errorf _ inner => Some inner
  end.


Fixpoint error_eqb (a b : error) : bool :=
  match a, b with
  | errors_New m, errors_New n => String.eqb m n
  | fmt_Errorf m x, fmt_Errorf n y => String.eqb m n && error_eqb x y
  | _, _ => false
  end.

(** [var ErrLoggerClosed = errors.New("logger is closed")] *)
Definition ErrLoggerClosed : error := errors_New "logger is closed".

(** The error the atomic variant's [Sync] makes when the timer wins. *)
Definition errFlushTimedOut : error := errors_New "fluent log flush timed out".

(** ** ASCII text *)

Definition is_upper (c : ascii) : bool :=
  let n := nat_of_ascii c in (65 <=? n)%nat && (n <=? 90)%nat.

Definition is_lower (c : ascii) : bool :=
  let n := nat_of_ascii c in (97 <=? n)%nat && (n <=? 122)%nat.

Definition ascii_upper (c : ascii) : ascii :=
  if is_lower c then ascii_of_nat (nat_of_ascii c - 32) else c.

Definition ascii_lower (c : ascii) : ascii :=
  if is_upper c then ascii_of_nat (nat_of_ascii c + 32) else c.

Fixpoint string_map (f : ascii -> ascii) (s : string) : string :=
  match s with
  | EmptyString => EmptyString
  | String c r => String (f c) (string_map f r)
  end.

(** [strings.ToUpper] and [bytes.ToLower].  Go maps Unicode code points; on
    text made of ASCII characters they are these byte-wise maps, and that is
    the text the statements below range over ([ascii_text]). *)
Definition strings_ToUpper : string -> string := string_map ascii_upper.
Definition bytes_ToLower : string -> string := string_map ascii_lower.

Fixpoint ascii_text (s : string) : bool :=
  match s with
  | EmptyString => true
  | String c r => (nat_of_ascii c <? 128)%nat && ascii_text r
  end.

(** ** zapcore levels (go.uber.org/zap, a dependency of the package) *)

Module zapcore.

(** [type Level int8] with its seven constants. *)
Inductive Level : Type :=
| DebugLevel | InfoLevel | WarnLevel | ErrorLevel
| DPanicLevel | PanicLevel | FatalLevel.

Definition Level_int (l : Level) : Z :=
  match l with
  | DebugLevel => -1
  | InfoLevel => 0
  | WarnLevel => 1
  | ErrorLevel => 2
  | DPanicLevel => 3
  | PanicLevel => 4
  | FatalLevel => 5
  end.

Definition Level_eqb (a b : Level) : bool := (Level_int a =? Level_int b)%Z.

(** [func (l Level) Enabled(lvl Level) bool { return lvl >= l }] *)
Definition Level_Enabled (l lvl : Level) : bool :=
  (Level_int l <=? Level_int lvl)%Z.

(** [func (l *Level) unmarshalText(text []byte) bool]: the switch on the
    text, [Some] the level assigned or [None] for [false]. *)
Definition unmarshalText (text : string) : option Level :=
  if (text =? "debug") || (text =? "DEBUG") then Some DebugLevel
  else if (text =? "info") || (text =? "INFO") || (text =? "") then Some InfoLevel
  else if (text =? "warn") || (text =? "WARN") then Some WarnLevel
  else if (text =? "error") || (text =? "ERROR") then Some ErrorLevel
  else if (text =? "dpanic") || (text =? "DPANIC") then Some DPanicLevel
  else if (text =? "panic") || (text =? "PANIC") then Some PanicLevel
  else if (text =? "fatal") || (text =? "FATAL") then Some FatalLevel
  else None.

(** [func (l *Level) UnmarshalText(text []byte) error]: the text as it
    is, then lowercased; the level is left as it was when both fail. *)
Definition UnmarshalText (l : Level) (text : string) : Level * option error :=
  match unmarshalText text with
  | Some l' => (l', None)
  | None =>
      match unmarshalText (bytes_ToLower text) with
      | Some l' => (l', None)
      | None => (l, Some (errors_New ("unrecognized level: " ++ text)))
      end
  end.

End zapcore.
Import zapcore.

(** ** parseLogLevel (atomic variant, the only one with a configurable level) *)

Definition defaultFluentTag : string := "app.logs".
Definition defaultLogLevel : Level := DebugLevel.
Definition Second : Z := 1000000000.
Definition Millisecond : Z := 1000000.
Definition defaultShutdownTimeout : Z := 5 * Second.
Definition compatibleLevelWarningUpperCase : string := "WARNING".

Definition parseLogLevel (lvl : string) : Level :=
  let level := defaultLogLevel in
  let '(level, err) := UnmarshalText level lvl in
  match err with
  | Some _ =>
      if strings_ToUpper lvl =? compatibleLevelWarningUpperCase
      then WarnLevel else level
  | None => level
  end.

(** The level names of the specification: the lower-case names. *)
Definition canonical_name (l : Level) : string :=
  match l with
  | DebugLevel => "debug"
  | InfoLevel => "info"
  | WarnLevel => "warn"
  | ErrorLevel => "error"
  | DPanicLevel => "dpanic"
  | PanicLevel => "panic"
  | FatalLevel => "fatal"
  end.

Definition all_levels : list Level :=
  [DebugLevel; InfoLevel; WarnLevel; ErrorLevel; DPanicLevel; PanicLevel; FatalLevel].

(** The level a lower-case text names, the empty text naming info. *)
Definition level_of_lower (s : string) : option Level :=
  if s =? "" then Some InfoLevel
  else find (fun l => canonical_name l =? s) all_levels.

(** Level parsing as the specification words it: canonical names resolve
    to their level, "WARNING" resolves to warn, and every other text
    resolves to debug. *)
Definition level_parsing_as_specified : Prop :=
  forall s : string,
    (forall l, s = canonical_name l -> parseLogLevel s = l) /\
    (s = "WARNING" -> parseLogLevel s = WarnLevel) /\
    ((forall l, s <> canonical_name l) -> s <> "WARNING" ->
     parseLogLevel s = DebugLevel).


(** ** The world outside the package *)

Definition bytes : Type := list Byte.byte.

(** The outcome of a call: it returns a value, or it never returns (it waits
    for a lock or for a transport call that hangs). *)
Inductive Outcome (A : Type) : Type :=
| Returns (a : A)
| Blocks.
Arguments Blocks {A}.

(** Calls are state transformers over a store [S]. *)
Definition M (S A : Type) : Type := S -> Outcome A * S.

Definition ret {S A : Type} (a : A) : M S A := fun s => (Returns a, s).

Definition bind {S A B : Type} (m : M S A) (k : A -> M S B) : M S B :=
  fun s =>
    match m s with
    | (Returns a, s') => k a s'
    | (Blocks, s') => (Blocks, s')
    end.

Definition block {S A : Type} : M S A := fun s => (Blocks, s).
Definition gets {S A : Type} (f : S -> A) : M S A := fun s => (Returns (f s), s).
Definition modify {S : Type} (f : S -> S) : M S unit := fun s => (Returns tt, f s).

Declare Scope go_scope.
Delimit Scope go_scope with go.
Notation "x <- c1 ;; c2" := (bind c1 (fun x => c2))
  (at level 100, c1 at next level, right associativity) : go_scope.
Notation "' pat <- c1 ;; c2" := (bind c1 (fun x => match x with pat => c2 end))
  (at level 100, pat pattern, c1 at next level, right associativity) : go_scope.
Notation "c1 ;; c2" := (bind c1 (fun _ => c2))
  (at level 100, right associativity) : go_scope.
Local Open Scope go_scope.

(** [sync.Once]: [Do(f)] runs [f] when the [Once] is fresh and marks it done
    when [f] has returned; while [f] runs the [Once]'s lock is held, so a [Do]
    that finds it running waits for it. *)
Inductive Once : Type := OnceFresh | OnceRunning | OnceDone.

Section World.

(** The decoded record, Go's [map[string]interface{}]. *)
Variable Entry : Type.

(** What the Transport Client sees of the package, oldest first. *)
Inductive Event : Type :=
| EvPost (tag : string) (time : Z) (record : Entry)
| EvClose
| EvCloseDone (r : option error).

(** How one call of the transport's [Close] goes: it returns [r] after
    [d] nanoseconds, or it never returns. *)
Inductive CloseRun : Type :=
| Finishes (d : N) (r : option error)
| Hangs.

(** [*fluent.Fluent], the Transport Client: an opaque collaborator, whose
    answers may depend on everything it has been asked so far. *)
Record Fluent : Type := {
  PostWithTime : list Event -> string -> Z -> Entry -> option error;
  Close : list Event -> CloseRun
}.

(** A goroutine running [f.logger.Close(); close(done)]. *)
Inductive Goroutine : Type :=
| closing (until : Z) (r : option error)
| stuck.

Record World : Type := {
  now : Z;
  trace : list Event;
  goroutines : list Goroutine
}.

Definition is_post (e : Event) : bool :=
  match e with EvPost _ _ _ => true | _ => false end.
Definition is_close (e : Event) : bool :=
  match e with EvClose => true | _ => false end.
Definition is_close_done (e : Event) : bool :=
  match e with EvCloseDone _ => true | _ => false end.

Definition posts (w : World) : list Event := filter is_post (trace w).
Definition closes (w : World) : nat := List.length (filter is_close (trace w)).
Definition closes_done (w : World) : nat := List.length (filter is_close_done (trace w)).

Definition record_event (e : Event) (w : World) : World :=
  {| now := now w; trace := trace w ++ [e]; goroutines := goroutines w |}.

Definition spawn (g : Goroutine) (w : World) : World :=
  {| now := now w; trace := trace w; goroutines := goroutines w ++ [g] |}.

Definition finished (t : Z) (g : Goroutine) : bool :=
  match g with
  | closing until _ => (until <=? t)%Z
  | stuck => false
  end.

Definition completion (t : Z) (g : Goroutine) : list Event :=
  match g with
  | closing until r => if (until <=? t)%Z then [EvCloseDone r] else []
  | stuck => []
  end.

(** [dt] nanoseconds pass: the goroutines whose [Close] has returned by
    then finish (the transport sees the return), the others keep running. *)
Definition elapse (dt : Z) (w : World) : World :=
  let t := (now w + Z.max 0 dt)%Z in
  {| now := t;
     trace := trace w ++ flat_map (completion t) (goroutines w);
     goroutines := filter (fun g => negb (finished t g)) (goroutines w) |}.

(** The goroutine a call of [Close] started at time [t] is. *)
Definition goroutine_of (t : Z) (run : CloseRun) : Goroutine :=
  match run with
  | Finishes d r => closing (t + Z.of_N d) r
  | Hangs => stuck
  end.

(** [select { case <-done: ... case <-time.After(timeout): ... }]: which
    case is taken.  When both channels are ready at the same instant the
    runtime picks one ([tie_done] says whether it is [done]). *)
Definition done_first (tie_done : bool) (run : CloseRun) (timeout : Z) : bool :=
  match run with
  | Finishes d _ =>
      (Z.of_N d <? timeout)%Z || ((Z.of_N d =? timeout)%Z && tie_done)
  | Hangs => false
  end.

End World.

Arguments EvClose {Entry}.
Arguments EvCloseDone {Entry} r.

(** [fluent.Config], the fields the programs of the repository set. *)
Record fluent_Config : Type := {
  FluentNetwork : string;
  FluentHost : string;
  FluentPort : Z;
  FluentSocketPath : string;
  Timeout : Z;
  WriteTimeout : Z;
  BufferLimit : Z;
  RetryWait : Z;
  MaxRetry : Z;
  Async : bool;
  TagPrefix : string
}.

Definition fluent_Config_with_Timeout (c : fluent_Config) (t : Z) : fluent_Config :=
  {| FluentNetwork := FluentNetwork c; FluentHost := FluentHost c;
     FluentPort := FluentPort c; FluentSocketPath := FluentSocketPath c;
     Timeout := t; WriteTimeout := WriteTimeout c;
     BufferLimit := BufferLimit c; RetryWait := RetryWait c;
     MaxRetry := MaxRetry c; Async := Async c; TagPrefix := TagPrefix c |}.

(** ** zap, as far as the package uses it (go.uber.org/zap) *)

Module zap.

(** [zapcore.Entry]: level, time and message of one log call. *)
Record Entry : Type := {
  Level : zapcore.Level;
  Time : Z;
  Message : string
}.

Section Core.

(** The store the sink works on, and zap's fields (the key-value pairs
    of a log call). *)
Variables (S Field : Type).

(** [zapcore.WriteSyncer]: [Write(p []byte) (int, error)] and
    [Sync() error]. *)
Record WriteSyncer : Type := {
  ws_Write : bytes -> M S (Z * option error);
  ws_Sync : M S (option error)
}.

(** [zapcore.Encoder.EncodeEntry]. *)
Definition Encoder : Type := Entry -> list Field -> bytes + error.

(** [zapcore.Core], the interface a zap logger writes through. *)
Record Core : Type := {
  Enabled : zapcore.Level -> bool;
  Write : Entry -> list Field -> M S (option error);
  Sync : M S (option error)
}.

(** [func (c *ioCore) Write(ent Entry, fields []Field) error]: encode,
    write the buffer to [out]; an entry above the error level also syncs. *)
Definition ioCore_Write (enc : Encoder) (out : WriteSyncer)
    (ent : Entry) (fields : list Field) : M S (option error) :=
  match enc ent fields with
  | inr err => ret (Some err)
  | inl buf =>
      '(_, err) <- ws_Write out buf ;;
      match err with
      | Some e => ret (Some e)
      | None =>
          if (Level_int ErrorLevel <? Level_int (Level ent))%Z
          then (_ <- ws_Sync out ;; ret None)
          else ret None
      end
  end.

(** [zapcore.NewCore(enc, ws, enab)]: the [ioCore]; its [Enabled] is the
    level's, its [Sync] is [out.Sync()]. *)
Definition NewCore (enc : Encoder) (ws : WriteSyncer) (enab : zapcore.Level) : Core :=
  {| Enabled := Level_Enabled enab;
     Write := ioCore_Write enc ws;
     Sync := ws_Sync ws |}.

(** [func (s *SugaredLogger) log(lvl, ...)] for the levels below
    [DPanicLevel]: the level is checked first; an enabled entry is
    stamped with the time and written through the core.  The error of
    the core's [Write] goes to zap's own error output and is not
    returned to the caller. *)
Definition log (clock : S -> Z) (core : Core) (lvl : zapcore.Level)
    (msg : string) (context : list Field) : M S unit :=
  if (Level_int lvl <? Level_int DPanicLevel)%Z && negb (Enabled core lvl)
  then ret tt
  else
    t <- gets clock ;;
    let ent := {| Level := lvl; Time := t; Message := msg |} in
    if Enabled core lvl
    then (_ <- Write core ent context ;; ret tt)
    else ret tt.

(** The leveled calls of the facade. *)
Definition Debugw clock core := log clock core DebugLevel.
Definition Infow clock core := log clock core InfoLevel.
Definition Warnw clock core := log clock core WarnLevel.
Definition Errorw clock core := log clock core ErrorLevel.

End Core.

End zap.

(** ** The atomic-flag variant: SugaredLogger over FluentLogger *)

Module Atomic.

Section Package.

(** The collaborators: the decoded record and [json.Unmarshal] into it,
    zap's fields and the JSON encoder built from the encoder
    configuration, [fluent.New], and the runtime's pick when both cases
    of the [select] are ready. *)
Variables (Entry Field : Type).
Variable json_Unmarshal : bytes -> Entry + error.
Variable fluent_New : fluent_Config -> Fluent Entry + error.
Variable encoder : zap.Encoder Field.
Variable tie_done : bool.

(** [type FluentLogger struct]; [closed] is the [atomic.Bool]. *)
Record FluentLogger : Type := {
  logger : Fluent Entry;
  tag : string;
  closed : bool;
  timeout : Z
}.

Record SugaredLoggerConfig : Type := {
  FluentConfig : fluent_Config;
  Tag : string;
  LogLevel : string
}.

(** What the pointers of one handle designate: the [FluentLogger] (the
    handle's [fluent] field and the [out] of the zap core are the same
    object), the handle's [closeOnce], and the world. *)
Record Store : Type := {
  fluent : FluentLogger;
  closeOnce : Once;
  world : World Entry
}.

(** [type SugaredLogger struct]: the embedded zap logger, through the
    core it writes to; [fluent] and [closeOnce] are in the store. *)
Record SugaredLogger : Type := {
  SugaredLogger_core : zap.Core Store Field
}.

Definition with_closed (b : bool) (st : Store) : Store :=
  {| fluent := {| logger := logger (fluent st); tag := tag (fluent st);
                  closed := b; timeout := timeout (fluent st) |};
     closeOnce := closeOnce st; world := world st |}.

Definition with_closeOnce (o : Once) (st : Store) : Store :=
  {| fluent := fluent st; closeOnce := o; world := world st |}.

Definition with_world (f : World Entry -> World Entry) (st : Store) : Store :=
  {| fluent := fluent st; closeOnce := closeOnce st; world := f (world st) |}.

(** [f.closed.Load()] and [f.closed.Swap(v)]. *)
Definition closed_Load : M Store bool := gets (fun st => closed (fluent st)).
Definition closed_Swap (v : bool) : M Store bool :=
  old <- closed_Load ;; _ <- modify (with_closed v) ;; ret old.

(** [f.logger.PostWithTime(f.tag, time.Now(), entry)] *)
Definition logger_PostWithTime (entry : Entry) : M Store (option error) :=
  fun st =>
    let w := world st in
    let r := PostWithTime (logger (fluent st)) (trace w) (tag (fluent st)) (now w) entry in
    (Returns r, with_world (record_event (EvPost (tag (fluent st)) (now w) entry)) st).

(** [func (f *FluentLogger) Write(p []byte) (int, error)] *)
Definition FluentLogger_Write (p : bytes) : M Store (Z * option error) :=
  c <- closed_Load ;;
  if c then ret (0, Some ErrLoggerClosed)
  else
    match json_Unmarshal p with
    | inr err => ret (0, Some (fmt_Errorf "log decode failed" err))
    | inl entry =>
        r <- logger_PostWithTime entry ;;
        match r with
        | Some err => ret (0, Some (fmt_Errorf "log delivery failed" err))
        | None => ret (Z.of_nat (List.length p), None)
        end
    end.

(** [go func() { f.logger.Close(); close(done) }()]: the transport's
    [Close] is called in a goroutine of its own. *)
Definition go_logger_Close : M Store CloseRun :=
  fun st =>
    let w := world st in
    let run := Close (logger (fluent st)) (trace w) in
    (Returns run,
     with_world (fun w => spawn (goroutine_of (now w) run) (record_event EvClose w)) st).

Definition sleep (dt : Z) : M Store unit := modify (with_world (elapse dt)).

(** The rest of [Sync] once the flag is swapped: the goroutine closing
    the transport, and the [select] between [done] and the timer. *)
Definition flush_with_timeout : M Store (option error) :=
  run <- go_logger_Close ;;
  t <- gets (fun st => timeout (fluent st)) ;;
  if done_first tie_done run t
  then
    match run with
    | Finishes d _ => (_ <- sleep (Z.of_N d) ;; ret None)
    | Hangs => ret None
    end
  else (_ <- sleep t ;; ret (Some errFlushTimedOut)).

(** [func (f *FluentLogger) Sync() error] *)
Definition FluentLogger_Sync : M Store (option error) :=
  old <- closed_Swap true ;;
  if old then ret None else flush_with_timeout.

(** [zapcore.AddSync(fluentLogger)]: a [*FluentLogger] has [Write] and
    [Sync], so it is the [WriteSyncer] itself. *)
Definition AddSync_fluentLogger : zap.WriteSyncer Store :=
  {| zap.ws_Write := FluentLogger_Write; zap.ws_Sync := FluentLogger_Sync |}.

(** The handle [NewSugaredLogger] builds for a level. *)
Definition new_handle (lvl : Level) : SugaredLogger :=
  {| SugaredLogger_core := zap.NewCore encoder AddSync_fluentLogger lvl |}.

(** [func NewSugaredLogger(cfg *SugaredLoggerConfig)], returning the handle
    or an error;
    the configuration is returned too, as the caller's is written through
    the pointer. *)
Definition NewSugaredLogger (cfg : SugaredLoggerConfig) (w : World Entry)
    : SugaredLoggerConfig * ((SugaredLogger * Store) + error) :=
  let cfg :=
    if Tag cfg =? ""
    then {| FluentConfig := FluentConfig cfg; Tag := defaultFluentTag;
            LogLevel := LogLevel cfg |}
    else cfg in
  let cfg :=
    if (Timeout (FluentConfig cfg) =? 0)%Z
    then {| FluentConfig :=
              fluent_Config_with_Timeout (FluentConfig cfg) defaultShutdownTimeout;
            Tag := Tag cfg; LogLevel := LogLevel cfg |}
    else cfg in
  match fluent_New (FluentConfig cfg) with
  | inr err => (cfg, inr (fmt_Errorf "failed to create fluent logger" err))
  | inl fl =>
      let fluentLogger :=
        {| logger := fl; tag := Tag cfg; closed := false;
           timeout := Timeout (FluentConfig cfg) |} in
      let lvl := parseLogLevel (LogLevel cfg) in
      (cfg, inl (new_handle lvl,
                 {| fluent := fluentLogger; closeOnce := OnceFresh; world := w |}))
  end.

(** [var err error; l.closeOnce.Do(func() { ... err = ... }); return err]:
    the function given to [Do] assigns the variable [err] of the call, so
    its value here is what it leaves in [err]; a call that finds the [Once]
    done runs nothing and its [err] is still nil. *)
Definition closeOnce_Do (f : M Store (option error)) : M Store (option error) :=
  o <- gets closeOnce ;;
  match o with
  | OnceDone => ret None
  | OnceRunning => block
  | OnceFresh =>
      _ <- modify (with_closeOnce OnceRunning) ;;
      err <- f ;;
      _ <- modify (with_closeOnce OnceDone) ;;
      ret err
  end.

(** The function [Close] gives to [closeOnce.Do]. *)
Definition Close_body (l : SugaredLogger) : M Store (option error) :=
  syncErr <- zap.Sync (SugaredLogger_core l) ;;
  let err :=
    match syncErr with
    | Some e => Some (fmt_Errorf "zap sync failed" e)
    | None => None
    end in
  fluentErr <- FluentLogger_Sync ;;
  let err :=
    match fluentErr with
    | Some e => Some (fmt_Errorf "fluent close failed" e)
    | None => err
    end in
  ret err.

(** [func (l *SugaredLogger) Close() error]; [None] is the nil handle. *)
Definition SugaredLogger_Close (l : option SugaredLogger) : M Store (option error) :=
  match l with
  | None => ret None
  | Some l => closeOnce_Do (Close_body l)
  end.

Definition clock (st : Store) : Z := now (world st).

(** The calls a holder of the handle can make, and time passing. *)
Inductive Call : Type :=
| CallWrite (p : bytes)
| CallSync
| CallClose
| CallLog (lvl : Level) (msg : string) (context : list Field)
| Wait (dt : N).

Inductive Result : Type :=
| ResWrite (n : Z) (err : option error)
| ResError (err : option error)
| ResNone.

Definition run_call (l : SugaredLogger) (c : Call) : M Store Result :=
  match c with
  | CallWrite p => '(n, err) <- FluentLogger_Write p ;; ret (ResWrite n err)
  | CallSync => err <- FluentLogger_Sync ;; ret (ResError err)
  | CallClose => err <- SugaredLogger_Close (Some l) ;; ret (ResError err)
  | CallLog lvl msg context =>
      _ <- zap.log clock (SugaredLogger_core l) lvl msg context ;; ret ResNone
  | Wait dt => _ <- sleep (Z.of_N dt) ;; ret ResNone
  end.

(** The calls of a list, one after the other; a call that never returns
    is the last one. *)
Fixpoint run_calls (l : SugaredLogger) (cs : list Call) (st : Store)
    : list (Outcome Result) * Store :=
  match cs with
  | [] => ([], st)
  | c :: cs' =>
      match run_call l c st with
      | (Returns r, st') =>
          let '(rs, st'') := run_calls l cs' st' in (Returns r :: rs, st'')
      | (Blocks, st') => ([Blocks], st')
      end
  end.

End Package.

Arguments CallWrite {Field} p.
Arguments CallSync {Field}.
Arguments CallClose {Field}.
Arguments Wait {Field} dt.

End Atomic.

(** ** The mutex variant: WrappedLogger over FluentLogger *)

Module Mutex.

Section Package.

Variables (Entry Field : Type).
Variable json_Unmarshal : bytes -> Entry + error.
Variable fluent_New : fluent_Config -> Fluent Entry + error.
Variable encoder : zap.Encoder Field.

(** [type FluentConfig struct] *)
Record FluentConfig : Type := {
  Fluent_ : fluent_Config;
  Tag : string;
  Timeout_ : Z
}.

(** [type FluentLogger struct]; [mu] is true while the mutex is held. *)
Record FluentLogger : Type := {
  mu : bool;
  logger : Fluent Entry;
  tag : string;
  closed : bool;
  timeout : Z
}.

Record Store : Type := {
  fluent : FluentLogger;
  closeOnce : Once;
  world : World Entry
}.

(** [type WrappedLogger struct] *)
Record WrappedLogger : Type := {
  WrappedLogger_core : zap.Core Store Field
}.

Definition with_mu (b : bool) (st : Store) : Store :=
  {| fluent := {| mu := b; logger := logger (fluent st); tag := tag (fluent st);
                  closed := closed (fluent st); timeout := timeout (fluent st) |};
     closeOnce := closeOnce st; world := world st |}.

Definition with_closed (b : bool) (st : Store) : Store :=
  {| fluent := {| mu := mu (fluent st); logger := logger (fluent st);
                  tag := tag (fluent st); closed := b;
                  timeout := timeout (fluent st) |};
     closeOnce := closeOnce st; world := world st |}.

Definition with_closeOnce (o : Once) (st : Store) : Store :=
  {| fluent := fluent st; closeOnce := o; world := world st |}.

Definition with_world (f : World Entry -> World Entry) (st : Store) : Store :=
  {| fluent := fluent st; closeOnce := closeOnce st; world := f (world st) |}.

(** [f.mu.Lock()]: a lock found held is held by a call that never
    returned, and is waited for without end. *)
Definition mu_Lock : M Store unit :=
  held <- gets (fun st => mu (fluent st)) ;;
  if held then block else modify (with_mu true).

(** [f.mu.Unlock()], run by [defer] when the function returns. *)
Definition mu_Unlock : M Store unit := modify (with_mu false).

(** [defer f.mu.Unlock()] around the rest of the function. *)
Definition deferred_Unlock {A : Type} (body : M Store A) : M Store A :=
  a <- body ;; _ <- mu_Unlock ;; ret a.

Definition logger_PostWithTime (entry : Entry) : M Store (option error) :=
  fun st =>
    let w := world st in
    let r := PostWithTime (logger (fluent st)) (trace w) (tag (fluent st)) (now w) entry in
    (Returns r, with_world (record_event (EvPost (tag (fluent st)) (now w) entry)) st).

(** [func (f *FluentLogger) Write(p []byte) (int, error)] *)
Definition FluentLogger_Write (p : bytes) : M Store (Z * option error) :=
  _ <- mu_Lock ;;
  deferred_Unlock (
    c <- gets (fun st => closed (fluent st)) ;;
    if c then ret (0, Some ErrLoggerClosed)
    else
      match json_Unmarshal p with
      | inr err => ret (0, Some (fmt_Errorf "log decode failed" err))
      | inl entry =>
          r <- logger_PostWithTime entry ;;
          match r with
          | Some err => ret (0, Some (fmt_Errorf "failed to send log entry" err))
          | None => ret (Z.of_nat (List.length p), None)
          end
      end).

Definition sleep (dt : Z) : M Store unit := modify (with_world (elapse dt)).

(** [f.logger.Close()] called in place: the caller waits until the
    transport's [Close] returns, however long that takes. *)
Definition logger_Close : M Store (option error) :=
  fun st =>
    let w := world st in
    match Close (logger (fluent st)) (trace w) with
    | Finishes d r =>
        (Returns r,
         with_world (fun w => record_event (EvCloseDone r)
                                (elapse (Z.of_N d) (record_event EvClose w))) st)
    | Hangs => (Blocks, with_world (record_event EvClose) st)
    end.

(** [func (f *FluentLogger) Sync() error] *)
Definition FluentLogger_Sync : M Store (option error) :=
  _ <- mu_Lock ;;
  deferred_Unlock (
    c <- gets (fun st => closed (fluent st)) ;;
    if c then ret None
    else
      _ <- modify (with_closed true) ;;
      logger_Close).

Definition AddSync_fluentLogger : zap.WriteSyncer Store :=
  {| zap.ws_Write := FluentLogger_Write; zap.ws_Sync := FluentLogger_Sync |}.

(** The handle [NewWrappedLogger] builds: the core's level is
    [zapcore.InfoLevel]. *)
Definition new_handle : WrappedLogger :=
  {| WrappedLogger_core := zap.NewCore encoder AddSync_fluentLogger InfoLevel |}.

(** [func NewWrappedLogger(cfg FluentConfig)], returning the handle or an
    error; the configuration is the function's own copy. *)
Definition NewWrappedLogger (cfg : FluentConfig) (w : World Entry)
    : (WrappedLogger * Store) + error :=
  let cfg :=
    if Tag cfg =? ""
    then {| Fluent_ := Fluent_ cfg; Tag := defaultFluentTag; Timeout_ := Timeout_ cfg |}
    else cfg in
  let cfg :=
    if (Timeout_ cfg =? 0)%Z
    then {| Fluent_ := Fluent_ cfg; Tag := Tag cfg; Timeout_ := defaultShutdownTimeout |}
    else cfg in
  match fluent_New (Fluent_ cfg) with
  | inr err => inr (fmt_Errorf "failed to create fluent logger" err)
  | inl fl =>
      let fluentLogger :=
        {| mu := false; logger := fl; tag := Tag cfg; closed := false;
           timeout := Timeout_ cfg |} in
      inl (new_handle,
           {| fluent := fluentLogger; closeOnce := OnceFresh; world := w |})
  end.

Definition closeOnce_Do (f : M Store (option error)) : M Store (option error) :=
  o <- gets closeOnce ;;
  match o with
  | OnceDone => ret None
  | OnceRunning => block
  | OnceFresh =>
      _ <- modify (with_closeOnce OnceRunning) ;;
      err <- f ;;
      _ <- modify (with_closeOnce OnceDone) ;;
      ret err
  end.

(** The function [Close] gives to [closeOnce.Do]: [err = l.Sync()], the
    zap logger's [Sync], then [l.fluent.Sync()] with its result dropped. *)
Definition Close_body (l : WrappedLogger) : M Store (option error) :=
  err <- zap.Sync (WrappedLogger_core l) ;;
  _ <- FluentLogger_Sync ;;
  ret err.

(** [func (l *WrappedLogger) Close() error]; [None] is the nil handle. *)
Definition WrappedLogger_Close (l : option WrappedLogger) : M Store (option error) :=
  match l with
  | None => ret None
  | Some l => closeOnce_Do (Close_body l)
  end.

Definition clock (st : Store) : Z := now (world st).

Inductive Call : Type :=
| CallWrite (p : bytes)
| CallSync
| CallClose
| CallLog (lvl : Level) (msg : string) (context : list Field)
| Wait (dt : N).

Inductive Result : Type :=
| ResWrite (n : Z) (err : option error)
| ResError (err : option error)
| ResNone.

Definition run_call (l : WrappedLogger) (c : Call) : M Store Result :=
  match c with
  | CallWrite p => '(n, err) <- FluentLogger_Write p ;; ret (ResWrite n err)
  | CallSync => err <- FluentLogger_Sync ;; ret (ResError err)
  | CallClose => err <- WrappedLogger_Close (Some l) ;; ret (ResError err)
  | CallLog lvl msg context =>
      _ <- zap.log clock (WrappedLogger_core l) lvl msg context ;; ret ResNone
  | Wait dt => _ <- sleep (Z.of_N dt) ;; ret ResNone
  end.

Fixpoint run_calls (l : WrappedLogger) (cs : list Call) (st : Store)
    : list (Outcome Result) * Store :=
  match cs with
  | [] => ([], st)
  | c :: cs' =>
      match run_call l c st with
      | (Returns r, st') =>
          let '(rs, st'') := run_calls l cs' st' in (Returns r :: rs, st'')
      | (Blocks, st') => ([Blocks], st')
      end
  end.

End Package.

Arguments CallWrite {Field} p.
Arguments CallSync {Field}.
Arguments CallClose {Field}.
Arguments Wait {Field} dt.

End Mutex.

(** ** Test doubles for the collaborators *)

Module Fake.

Import Byte.

(** A decoded record is kept as the text it came from. *)
Definition Entry : Type := bytes.
Definition Field : Type := (string * string)%type.

(** A decoder that takes a text opening with a brace for an object. *)
Definition json_Unmarshal (p : bytes) : Entry + error :=
  match p with
  | x7b :: _ => inl p
  | _ => inr (errors_New "invalid character looking for beginning of value")
  end.

(** An encoder that writes the empty object. *)
Definition encoder : zap.Encoder Field := fun _ _ => inl [x7b; x7d].

Definition refused : error := errors_New "connection refused".

(** A transport that answers every post with [post] and whose [Close]
    goes as [run]. *)
Definition transport (post : option error) (run : CloseRun) : Fluent Entry :=
  {| PostWithTime := fun _ _ _ _ => post; Close := fun _ => run |}.

(** [fluent.New] handing out that transport, or refusing a network it does
    not know. *)
Definition fluent_New (post : option error) (run : CloseRun)
    (cfg : fluent_Config) : Fluent Entry + error :=
  if (FluentNetwork cfg =? "tcp") || (FluentNetwork cfg =? "tls")
     || (FluentNetwork cfg =? "unix") || (FluentNetwork cfg =? "")
  then inl (transport post run)
  else inr (errors_New "unknown network").

Definition config (t : Z) : fluent_Config :=
  {| FluentNetwork := "tcp"; FluentHost := "127.0.0.1"; FluentPort := 24224;
     FluentSocketPath := ""; Timeout := t; WriteTimeout := 0;
     BufferLimit := 8192; RetryWait := 500; MaxRetry := 13; Async := false;
     TagPrefix := "" |}.

Definition world0 : World Entry := {| now := 0; trace := []; goroutines := [] |}.

(** An open atomic-variant sink with the given timeout. *)
Definition atomic_store (post : option error) (run : CloseRun) (t : Z)
    : Atomic.Store Entry :=
  {| Atomic.fluent := {| Atomic.logger := transport post run;
                         Atomic.tag := "app.logs"; Atomic.closed := false;
                         Atomic.timeout := t |};
     Atomic.closeOnce := OnceFresh;
     Atomic.world := world0 |}.

(** An open mutex-variant sink with the given timeout. *)
Definition mutex_store (post : option error) (run : CloseRun) (t : Z)
    : Mutex.Store Entry :=
  {| Mutex.fluent := {| Mutex.mu := false; Mutex.logger := transport post run;
                        Mutex.tag := "app.logs"; Mutex.closed := false;
                        Mutex.timeout := t |};
     Mutex.closeOnce := OnceFresh;
     Mutex.world := world0 |}.



Definition hello : bytes := [x7b; x22; x61; x22; x3a; x31; x7d].
Definition garbage : bytes := [x6e; x6f].

(** Handles as the constructors build them, on these collaborators; the
    runtime picks [done] on a tie. *)
Definition atomic_handle (lvl : Level) : Atomic.SugaredLogger Entry Field :=
  Atomic.new_handle json_Unmarshal encoder true lvl.
Definition mutex_handle : Mutex.WrappedLogger Entry Field :=
  Mutex.new_handle json_Unmarshal encoder.


(** Sinks with a timeout of 50 ms: one whose transport closes in 10 ns,
    one whose transport takes a second to close, one whose transport's
    close hangs, one whose transport's close fails at once. *)
Definition atomic_quick : Atomic.Store Entry :=
  atomic_store None (Finishes 10 None) (50 * Millisecond).
Definition atomic_slow : Atomic.Store Entry :=
  atomic_store None (Finishes 1000000000 None) (50 * Millisecond).
Definition atomic_hung : Atomic.Store Entry :=
  atomic_store None Hangs (50 * Millisecond).
Definition mutex_quick : Mutex.Store Entry :=
  mutex_store None (Finishes 10 None) (50 * Millisecond).
Definition mutex_slow : Mutex.Store Entry :=
  mutex_store None (Finishes 1000000000 None) (50 * Millisecond).
Definition mutex_hung : Mutex.Store Entry :=
  mutex_store None Hangs (50 * Millisecond).
Definition mutex_refusing : Mutex.Store Entry :=
  mutex_store None (Finishes 10 (Some refused)) (50 * Millisecond).

(** The stores these sinks are in after a first [Sync]. *)
Definition atomic_quick_synced : Atomic.Store Entry :=
  snd (Atomic.FluentLogger_Sync true atomic_quick).
Definition atomic_hung_synced : Atomic.Store Entry :=
  snd (Atomic.FluentLogger_Sync true atomic_hung).
Definition mutex_quick_synced : Mutex.Store Entry :=
  snd (Mutex.FluentLogger_Sync mutex_quick).

End Fake.


(** * Level parsing *)

Lemma ascii_lower_idempotent (c : ascii) : ascii_lower (ascii_lower c) = ascii_lower c.
Proof.
  destruct c as [b0 b1 b2 b3 b4 b5 b6 b7];
    destruct b0, b1, b2, b3, b4, b5, b6, b7; reflexivity.
Qed.

Lemma ascii_lower_upper (c : ascii) : ascii_lower (ascii_upper c) = ascii_lower c.
Proof.
  destruct c as [b0 b1 b2 b3 b4 b5 b6 b7];
    destruct b0, b1, b2, b3, b4, b5, b6, b7; reflexivity.
Qed.

Lemma bytes_ToLower_idempotent (s : string) :
  bytes_ToLower (bytes_ToLower s) = bytes_ToLower s.
Proof.
  induction s as [|c r IH]; simpl; [reflexivity|].
  unfold bytes_ToLower in *; simpl. now rewrite ascii_lower_idempotent, IH.
Qed.

Lemma bytes_ToLower_ToUpper (s : string) :
  bytes_ToLower (strings_ToUpper s) = bytes_ToLower s.
Proof.
  induction s as [|c r IH]; simpl; [reflexivity|].
  unfold bytes_ToLower, strings_ToUpper in *; simpl.
  now rewrite ascii_lower_upper, IH.
Qed.

Lemma bytes_ToLower_empty (s : string) : bytes_ToLower s = "" -> s = "".
Proof. destruct s; [reflexivity | discriminate]. Qed.

(** Splits the first test [s =? c] of the goal or of hypothesis [H]. *)
Ltac split_eqb H :=
  match type of H with
  | context [String.eqb ?a ?b] =>
      let E := fresh "E" in
      destruct (String.eqb a b) eqn:E;
      [apply String.eqb_eq in E; subst | ]
  end.

Lemma unmarshalText_lower (s : string) (l : Level) :
  unmarshalText s = Some l -> level_of_lower (bytes_ToLower s) = Some l.
Proof.
  unfold unmarshalText. intros H.
  repeat (split_eqb H; simpl in H;
          [ injection H as <-; reflexivity | ]).
  discriminate.
Qed.

Lemma level_of_lower_names (t : string) (l : Level) :
  level_of_lower t = Some l -> t = "" /\ l = InfoLevel \/ t = canonical_name l.
Proof.
  unfold level_of_lower. intros H.
  split_eqb H; [left; split; congruence|]. right.
  cbv beta iota delta [find all_levels canonical_name] in H.
  repeat (split_eqb H; [injection H as <-; reflexivity | ]).
  discriminate.
Qed.

Lemma level_of_lower_canonical (l : Level) :
  level_of_lower (canonical_name l) = Some l.
Proof. destruct l; reflexivity. Qed.

Lemma level_of_lower_unmarshalText (t : string) (l : Level) :
  level_of_lower t = Some l -> unmarshalText t = Some l.
Proof.
  intros H. destruct (level_of_lower_names _ H) as [[-> ->] | ->];
    [reflexivity | destruct l; reflexivity].
Qed.

(** The level [parseLogLevel] gives, read off the lower-cased text. *)
Lemma parseLogLevel_by_case (s : string) :
  parseLogLevel s =
    match level_of_lower (bytes_ToLower s) with
    | Some l => l
    | None => if strings_ToUpper s =? "WARNING" then WarnLevel else DebugLevel
    end.
Proof.
  unfold parseLogLevel, UnmarshalText, defaultLogLevel, compatibleLevelWarningUpperCase.
  destruct (unmarshalText s) as [l|] eqn:E1.
  - now rewrite (unmarshalText_lower _ E1).
  - destruct (unmarshalText (bytes_ToLower s)) as [l|] eqn:E2.
    + apply unmarshalText_lower in E2.
      rewrite bytes_ToLower_idempotent in E2. now rewrite E2.
    + destruct (level_of_lower (bytes_ToLower s)) as [l|] eqn:E3; [|reflexivity].
      apply level_of_lower_unmarshalText in E3. congruence.
Qed.

(** C8, as the code has it: on ASCII text, level parsing ignores case.  A
    text that is a zap level name in any mix of case resolves to that level
    (so "error" and "ERROR" both give the error level), the empty text
    resolves to info, a text that is "WARNING" in any mix of case resolves
    to warn, and every other text resolves to the default debug level;
    parsing never fails. *)
Theorem parseLogLevel_ignores_case :
  (forall s l, ascii_text s = true ->
     bytes_ToLower s = canonical_name l -> parseLogLevel s = l) /\
  parseLogLevel "" = InfoLevel /\
  (forall s, ascii_text s = true ->
     strings_ToUpper s = "WARNING" -> parseLogLevel s = WarnLevel) /\
  (forall s, ascii_text s = true -> s <> "" ->
     (forall l, bytes_ToLower s <> canonical_name l) ->
     strings_ToUpper s <> "WARNING" -> parseLogLevel s = DebugLevel).
Proof.
  repeat split.
  - intros s l _ H. rewrite parseLogLevel_by_case, H.
    now rewrite level_of_lower_canonical.
  - intros s _ H. rewrite parseLogLevel_by_case.
    rewrite <- bytes_ToLower_ToUpper, H. reflexivity.
  - intros s _ Hne Hnames Hw. rewrite parseLogLevel_by_case.
    destruct (level_of_lower (bytes_ToLower s)) as [l|] eqn:E.
    + destruct (level_of_lower_names _ E) as [[H _] | H].
      * apply bytes_ToLower_empty in H. contradiction.
      * now apply Hnames in H.
    + destruct (strings_ToUpper s =? "WARNING") eqn:Eu; [|reflexivity].
      apply String.eqb_eq in Eu. contradiction.
Qed.

Lemma parseLogLevel_ignores_case_witness :
  parseLogLevel "ERROR" = ErrorLevel /\
  parseLogLevel "error" = ErrorLevel /\
  parseLogLevel "Warning" = WarnLevel /\
  parseLogLevel "WARNING" = WarnLevel /\
  parseLogLevel "bogus" = DebugLevel.
Proof.
  destruct parseLogLevel_ignores_case as (Hname & _ & Hwarn & Hother).
  split; [apply (Hname "ERROR" ErrorLevel); reflexivity|].
  split; [apply (Hname "error" ErrorLevel); reflexivity|].
  split; [apply (Hwarn "Warning"); reflexivity|].
  split; [apply (Hwarn "WARNING"); reflexivity|].
  apply (Hother "bogus"); [reflexivity | discriminate | | discriminate].
  intros l; destruct l; discriminate.
Defined.

(** C8, as the specification words it, fails: "warning" is neither a
    canonical name nor the token "WARNING", and it resolves to warn. *)
Lemma level_parsing_as_specified_fails : ~ level_parsing_as_specified.
Proof.
  intros H. destruct (H "warning") as (_ & _ & Hother).
  assert (E : parseLogLevel "warning" = DebugLevel).
  { apply Hother; [intros l; destruct l; discriminate | discriminate]. }
  vm_compute in E. discriminate E.
Qed.

(** * The world: what the transport has seen *)

Section WorldFacts.

Variable Entry : Type.
Implicit Types (w : World Entry) (e : Event Entry).

Lemma completion_no_post (t : Z) (gs : list Goroutine) :
  filter (@is_post Entry) (flat_map (completion Entry t) gs) = [].
Proof.
  induction gs as [|g gs IH]; simpl; [reflexivity|].
  rewrite filter_app, IH, app_nil_r.
  destruct g as [until r|]; simpl; [|reflexivity].
  destruct (until <=? t)%Z; reflexivity.
Qed.

Lemma completion_no_close (t : Z) (gs : list Goroutine) :
  filter (@is_close Entry) (flat_map (completion Entry t) gs) = [].
Proof.
  induction gs as [|g gs IH]; simpl; [reflexivity|].
  rewrite filter_app, IH, app_nil_r.
  destruct g as [until r|]; simpl; [|reflexivity].
  destruct (until <=? t)%Z; reflexivity.
Qed.

Lemma posts_elapse (dt : Z) w : posts (elapse dt w) = posts w.
Proof.
  unfold posts, elapse; simpl.
  now rewrite filter_app, completion_no_post, app_nil_r.
Qed.

Lemma closes_elapse (dt : Z) w : closes (elapse dt w) = closes w.
Proof.
  unfold closes, elapse; simpl.
  now rewrite filter_app, completion_no_close, app_nil_r.
Qed.

Lemma posts_spawn (g : Goroutine) w : posts (spawn g w) = posts w.
Proof. reflexivity. Qed.

Lemma closes_spawn (g : Goroutine) w : closes (spawn g w) = closes w.
Proof. reflexivity. Qed.

Lemma posts_record_close w : posts (record_event EvClose w) = posts w.
Proof.
  unfold posts, record_event; simpl. now rewrite filter_app, app_nil_r.
Qed.

Lemma closes_record_close w : closes (record_event EvClose w) = S (closes w).
Proof.
  unfold closes, record_event; simpl.
  rewrite filter_app, length_app; simpl. lia.
Qed.

Lemma posts_record_done (r : option error) w :
  posts (record_event (EvCloseDone r) w) = posts w.
Proof.
  unfold posts, record_event; simpl. now rewrite filter_app, app_nil_r.
Qed.

Lemma closes_record_done (r : option error) w :
  closes (record_event (EvCloseDone r) w) = closes w.
Proof.
  unfold closes, record_event; simpl.
  rewrite filter_app, length_app; simpl. lia.
Qed.

Lemma posts_record_post (tg : string) (t : Z) (x : Entry) w :
  posts (record_event (EvPost tg t x) w) = (posts w ++ [EvPost tg t x])%list.
Proof. unfold posts, record_event; simpl. now rewrite filter_app. Qed.

End WorldFacts.

Create Rewrite HintDb world.
#[local] Hint Rewrite posts_elapse closes_elapse posts_spawn closes_spawn
  posts_record_close closes_record_close posts_record_done closes_record_done
  : world.

(** * The atomic variant *)

(** Unfolds the monad's operations. *)
Ltac run_monad := unfold bind, ret, gets, modify, block in *; simpl in *.

Section AtomicFacts.

Variables (Entry Field : Type).
Variable json_Unmarshal : bytes -> Entry + error.
Variable encoder : zap.Encoder Field.
Variable tie_done : bool.

Local Abbreviation Store := (Atomic.Store Entry).
Local Abbreviation Write := (Atomic.FluentLogger_Write json_Unmarshal).
Local Abbreviation Sync := (Atomic.FluentLogger_Sync (Entry:=Entry) tie_done).
Local Abbreviation flush := (Atomic.flush_with_timeout (Entry:=Entry) tie_done).
Local Abbreviation handle := (Atomic.new_handle json_Unmarshal encoder tie_done).
Local Abbreviation CloseHandle := (Atomic.SugaredLogger_Close (Field:=Field) tie_done).
Local Abbreviation run_call := (Atomic.run_call json_Unmarshal tie_done).
Local Abbreviation run_calls := (Atomic.run_calls json_Unmarshal tie_done).
Local Abbreviation is_closed st := (Atomic.closed (Atomic.fluent st)).

Implicit Types (st : Store) (p : bytes).

Lemma atomic_with_closed_same st :
  is_closed st = true -> Atomic.with_closed true st = st.
Proof. destruct st as [[lg tg cl tm] o w]; simpl; now intros ->. Qed.

Lemma atomic_Write_closed p st :
  is_closed st = true -> Write p st = (Returns (0, Some ErrLoggerClosed), st).
Proof.
  intros H. unfold Atomic.FluentLogger_Write, Atomic.closed_Load.
  run_monad. now rewrite H.
Qed.

Lemma atomic_Write_decode_error p st (e : error) :
  is_closed st = false -> json_Unmarshal p = inr e ->
  Write p st = (Returns (0, Some (fmt_Errorf "log decode failed" e)), st).
Proof.
  intros H D. unfold Atomic.FluentLogger_Write, Atomic.closed_Load.
  run_monad. now rewrite H, D.
Qed.

(** The answer of the transport to a post made from [st]. *)
Definition atomic_post_answer st (entry : Entry) : option error :=
  PostWithTime (Atomic.logger (Atomic.fluent st)) (trace (Atomic.world st))
    (Atomic.tag (Atomic.fluent st)) (now (Atomic.world st)) entry.

Definition atomic_posted st (entry : Entry) : Store :=
  Atomic.with_world
    (record_event (EvPost (Atomic.tag (Atomic.fluent st))
                     (now (Atomic.world st)) entry)) st.

Lemma atomic_Write_delivery_error p st (entry : Entry) (e : error) :
  is_closed st = false -> json_Unmarshal p = inl entry ->
  atomic_post_answer st entry = Some e ->
  Write p st =
    (Returns (0, Some (fmt_Errorf "log delivery failed" e)), atomic_posted st entry).
Proof.
  intros H D P. unfold Atomic.FluentLogger_Write, Atomic.closed_Load,
    Atomic.logger_PostWithTime, atomic_post_answer in *.
  run_monad. now rewrite H, D, P.
Qed.

Lemma atomic_Write_ok p st (entry : Entry) :
  is_closed st = false -> json_Unmarshal p = inl entry ->
  atomic_post_answer st entry = None ->
  Write p st = (Returns (Z.of_nat (List.length p), None), atomic_posted st entry).
Proof.
  intros H D P. unfold Atomic.FluentLogger_Write, Atomic.closed_Load,
    Atomic.logger_PostWithTime, atomic_post_answer in *.
  run_monad. now rewrite H, D, P.
Qed.

Lemma atomic_Sync_closed st :
  is_closed st = true -> Sync st = (Returns None, st).
Proof.
  intros H. unfold Atomic.FluentLogger_Sync, Atomic.closed_Swap, Atomic.closed_Load.
  run_monad. now rewrite H, atomic_with_closed_same.
Qed.

Lemma atomic_Sync_open st :
  is_closed st = false -> Sync st = flush (Atomic.with_closed true st).
Proof.
  intros H. unfold Atomic.FluentLogger_Sync, Atomic.closed_Swap, Atomic.closed_Load.
  run_monad. now rewrite H.
Qed.

(** The store after the close phase, when the timer wins and when [done]
    wins. *)
Definition atomic_close_run st : CloseRun :=
  Close (Atomic.logger (Atomic.fluent st)) (trace (Atomic.world st)).

Definition atomic_started st : Store :=
  Atomic.with_world
    (fun w => spawn (goroutine_of (now w) (atomic_close_run st))
                (record_event EvClose w)) st.

Lemma atomic_flush_timer st :
  done_first tie_done (atomic_close_run st) (Atomic.timeout (Atomic.fluent st)) = false ->
  flush st =
    (Returns (Some errFlushTimedOut),
     Atomic.with_world (elapse (Atomic.timeout (Atomic.fluent st))) (atomic_started st)).
Proof.
  intros H. unfold Atomic.flush_with_timeout, Atomic.go_logger_Close, Atomic.sleep,
    atomic_close_run, atomic_started in *.
  run_monad. now rewrite H.
Qed.

Lemma atomic_flush_done st (d : N) (r : option error) :
  atomic_close_run st = Finishes d r ->
  done_first tie_done (Finishes d r) (Atomic.timeout (Atomic.fluent st)) = true ->
  flush st =
    (Returns None, Atomic.with_world (elapse (Z.of_N d)) (atomic_started st)).
Proof.
  intros R H. unfold Atomic.flush_with_timeout, Atomic.go_logger_Close, Atomic.sleep,
    atomic_close_run, atomic_started in *.
  run_monad. rewrite R. simpl. rewrite H.
  unfold atomic_close_run. now rewrite R.
Qed.

(** The close phase always returns: it calls the transport's [Close] once
    and posts nothing, and leaves the flag and [closeOnce] as they were. *)
Lemma atomic_flush_returns st :
  exists r st',
    flush st = (Returns r, st') /\
    Atomic.fluent st' = Atomic.fluent st /\
    Atomic.closeOnce st' = Atomic.closeOnce st /\
    posts (Atomic.world st') = posts (Atomic.world st) /\
    closes (Atomic.world st') = S (closes (Atomic.world st)).
Proof.
  destruct (done_first tie_done (atomic_close_run st)
              (Atomic.timeout (Atomic.fluent st))) eqn:H.
  - destruct (atomic_close_run st) as [d r|] eqn:R; [|discriminate].
    eexists _, _. split; [apply (atomic_flush_done _ R H)|].
    unfold atomic_started; simpl. autorewrite with world. auto.
  - eexists _, _. split; [apply (atomic_flush_timer _ H)|].
    unfold atomic_started; simpl. autorewrite with world. auto.
Qed.

(** [Sync] always returns, with the flag set; it calls the transport's
    [Close] exactly when it found the flag unset. *)
Lemma atomic_Sync_returns st :
  exists r st',
    Sync st = (Returns r, st') /\
    is_closed st' = true /\
    Atomic.closeOnce st' = Atomic.closeOnce st /\
    posts (Atomic.world st') = posts (Atomic.world st) /\
    closes (Atomic.world st') =
      (if is_closed st then closes (Atomic.world st) else S (closes (Atomic.world st))).
Proof.
  destruct (is_closed st) eqn:H.
  - exists None, st. rewrite (atomic_Sync_closed _ H). auto.
  - rewrite (atomic_Sync_open _ H).
    destruct (atomic_flush_returns (Atomic.with_closed true st))
      as (r & st' & E & F & O & P & C).
    exists r, st'. rewrite E, F. simpl in *. auto.
Qed.

Lemma atomic_Write_returns p st :
  exists n err st', Write p st = (Returns (n, err), st') /\
    ((n = 0 /\ err <> None) \/ (n = Z.of_nat (List.length p) /\ err = None)).
Proof.
  destruct (is_closed st) eqn:H.
  - eexists _, _, _. split; [eapply atomic_Write_closed; eassumption|].
    left; split; [reflexivity | discriminate].
  - destruct (json_Unmarshal p) as [entry|e] eqn:D.
    + destruct (atomic_post_answer st entry) as [e|] eqn:P.
      * eexists _, _, _. split; [eapply atomic_Write_delivery_error; eassumption|].
        left; split; [reflexivity | discriminate].
      * eexists _, _, _. split; [eapply atomic_Write_ok; eassumption|].
        right; split; reflexivity.
    + eexists _, _, _. split; [eapply atomic_Write_decode_error; eassumption|].
      left; split; [reflexivity | discriminate].
Qed.

Lemma atomic_Close_done (l : Atomic.SugaredLogger Entry Field) st :
  Atomic.closeOnce st = OnceDone -> CloseHandle (Some l) st = (Returns None, st).
Proof.
  intros H. unfold Atomic.SugaredLogger_Close, Atomic.closeOnce_Do, bind, gets.
  now rewrite H.
Qed.

Lemma atomic_Close_fresh (l : Atomic.SugaredLogger Entry Field) st
    (err : option error) st' :
  Atomic.closeOnce st = OnceFresh ->
  Atomic.Close_body tie_done l (Atomic.with_closeOnce OnceRunning st) = (Returns err, st') ->
  CloseHandle (Some l) st = (Returns err, Atomic.with_closeOnce OnceDone st').
Proof.
  intros H B. unfold Atomic.SugaredLogger_Close, Atomic.closeOnce_Do, bind, gets, modify, ret.
  now rewrite H, B.
Qed.


(** ** Once the flag is set *)

(** What every call answers once the flag is set. *)
Definition atomic_closed_answer (c : Atomic.Call Field) : Outcome Atomic.Result :=
  Returns
    match c with
    | Atomic.CallWrite _ => Atomic.ResWrite 0 (Some ErrLoggerClosed)
    | Atomic.CallSync | Atomic.CallClose => Atomic.ResError None
    | Atomic.CallLog _ _ _ | Atomic.Wait _ => Atomic.ResNone
    end.

Lemma atomic_Close_body_closed (lvl : Level) st :
  is_closed st = true ->
  Atomic.Close_body tie_done (handle lvl) st = (Returns None, st).
Proof.
  intros H. unfold Atomic.Close_body, bind; simpl.
  rewrite (atomic_Sync_closed _ H). now rewrite (atomic_Sync_closed _ H).
Qed.

Lemma atomic_log_closed (lvl l : Level) (msg : string) (ctx : list Field) st :
  is_closed st = true ->
  zap.log (@Atomic.clock Entry) (Atomic.SugaredLogger_core (handle lvl)) l msg ctx st
  = (Returns tt, st).
Proof.
  intros H. unfold zap.log; simpl.
  destruct (_ && negb (Level_Enabled lvl l)); [reflexivity|].
  unfold bind, gets; simpl.
  destruct (Level_Enabled lvl l); [|reflexivity].
  unfold zap.ioCore_Write, bind; simpl.
  destruct (encoder _ _) as [buf|e]; [|reflexivity].
  now rewrite (atomic_Write_closed _ _ H).
Qed.

Lemma atomic_run_call_closed (lvl : Level) (c : Atomic.Call Field) st :
  is_closed st = true -> Atomic.closeOnce st <> OnceRunning ->
  exists st',
    run_call (handle lvl) c st = (atomic_closed_answer c, st') /\
    is_closed st' = true /\ Atomic.closeOnce st' <> OnceRunning /\
    posts (Atomic.world st') = posts (Atomic.world st) /\
    closes (Atomic.world st') = closes (Atomic.world st).
Proof.
  intros H O. destruct c as [p| | |l msg ctx|dt]; unfold Atomic.run_call.
  - exists st. unfold bind. now rewrite (atomic_Write_closed _ _ H).
  - exists st. unfold bind. now rewrite (atomic_Sync_closed _ H).
  - unfold Atomic.SugaredLogger_Close, Atomic.closeOnce_Do, bind, gets.
    destruct (Atomic.closeOnce st) eqn:E; [| contradiction |].
    + unfold modify, ret.
      rewrite atomic_Close_body_closed by exact H.
      eexists. split; [reflexivity|]. simpl. repeat split; auto. discriminate.
    + exists st. simpl. repeat split; auto. congruence.
  - exists st. unfold bind. rewrite (atomic_log_closed _ _ _ _ _ H). auto.
  - eexists. unfold Atomic.sleep, bind, modify, ret. split; [reflexivity|].
    simpl. autorewrite with world. auto.
Qed.

(** Once the flag is set, any calls whatever are all answered, each with
    its closed answer, and the transport sees no post and no close. *)
Lemma atomic_run_calls_closed (lvl : Level) (cs : list (Atomic.Call Field)) :
  forall st,
    is_closed st = true -> Atomic.closeOnce st <> OnceRunning ->
    fst (run_calls (handle lvl) cs st) = map atomic_closed_answer cs /\
    is_closed (snd (run_calls (handle lvl) cs st)) = true /\
    posts (Atomic.world (snd (run_calls (handle lvl) cs st))) = posts (Atomic.world st) /\
    closes (Atomic.world (snd (run_calls (handle lvl) cs st))) = closes (Atomic.world st).
Proof.
  induction cs as [|c cs IH]; intros st H O; simpl; [auto|].
  destruct (atomic_run_call_closed lvl c _ H O) as (st' & E & H' & O' & P & C).
  rewrite E. unfold atomic_closed_answer at 1.
  destruct (IH st' H' O') as (R & H'' & P' & C').
  destruct (run_calls (handle lvl) cs st') as [rs st''] eqn:E'; simpl in *.
  repeat split; [now rewrite R | assumption | congruence | congruence].
Qed.

End AtomicFacts.

(** * The mutex variant *)

Section MutexFacts.

Variables (Entry Field : Type).
Variable json_Unmarshal : bytes -> Entry + error.
Variable encoder : zap.Encoder Field.

Local Abbreviation Store := (Mutex.Store Entry).
Local Abbreviation Write := (Mutex.FluentLogger_Write json_Unmarshal).
Local Abbreviation Sync := (Mutex.FluentLogger_Sync (Entry:=Entry)).
Local Abbreviation handle := (Mutex.new_handle json_Unmarshal encoder).
Local Abbreviation run_call := (Mutex.run_call json_Unmarshal).
Local Abbreviation run_calls := (Mutex.run_calls json_Unmarshal).
Local Abbreviation is_closed st := (Mutex.closed (Mutex.fluent st)).
Local Abbreviation is_locked st := (Mutex.mu (Mutex.fluent st)).

Implicit Types (st : Store) (p : bytes).

Lemma mutex_unlock_lock st :
  is_locked st = false -> Mutex.with_mu false (Mutex.with_mu true st) = st.
Proof. destruct st as [[m lg tg cl tm] o w]; simpl; now intros ->. Qed.

Lemma mutex_Write_closed p st :
  is_locked st = false -> is_closed st = true ->
  Write p st = (Returns (0, Some ErrLoggerClosed), st).
Proof.
  intros L H. unfold Mutex.FluentLogger_Write, Mutex.deferred_Unlock,
    Mutex.mu_Lock, Mutex.mu_Unlock.
  run_monad. rewrite L; simpl. rewrite H; simpl.
  now rewrite mutex_unlock_lock.
Qed.

Lemma mutex_Write_decode_error p st (e : error) :
  is_locked st = false -> is_closed st = false -> json_Unmarshal p = inr e ->
  Write p st = (Returns (0, Some (fmt_Errorf "log decode failed" e)), st).
Proof.
  intros L H D. unfold Mutex.FluentLogger_Write, Mutex.deferred_Unlock,
    Mutex.mu_Lock, Mutex.mu_Unlock.
  run_monad. rewrite L; simpl. rewrite H, D; simpl.
  now rewrite mutex_unlock_lock.
Qed.

Definition mutex_post_answer st (entry : Entry) : option error :=
  PostWithTime (Mutex.logger (Mutex.fluent st)) (trace (Mutex.world st))
    (Mutex.tag (Mutex.fluent st)) (now (Mutex.world st)) entry.

Definition mutex_posted st (entry : Entry) : Store :=
  Mutex.with_world
    (record_event (EvPost (Mutex.tag (Mutex.fluent st))
                     (now (Mutex.world st)) entry)) st.

Lemma mutex_Write_delivery_error p st (entry : Entry) (e : error) :
  is_locked st = false -> is_closed st = false ->
  json_Unmarshal p = inl entry -> mutex_post_answer st entry = Some e ->
  Write p st =
    (Returns (0, Some (fmt_Errorf "failed to send log entry" e)), mutex_posted st entry).
Proof.
  intros L H D P. unfold Mutex.FluentLogger_Write, Mutex.deferred_Unlock,
    Mutex.mu_Lock, Mutex.mu_Unlock, Mutex.logger_PostWithTime,
    mutex_post_answer, mutex_posted in *.
  destruct st as [[m lg tg cl tm] o w]; simpl in *; subst.
  run_monad. rewrite D; simpl. now rewrite P.
Qed.

Lemma mutex_Write_ok p st (entry : Entry) :
  is_locked st = false -> is_closed st = false ->
  json_Unmarshal p = inl entry -> mutex_post_answer st entry = None ->
  Write p st = (Returns (Z.of_nat (List.length p), None), mutex_posted st entry).
Proof.
  intros L H D P. unfold Mutex.FluentLogger_Write, Mutex.deferred_Unlock,
    Mutex.mu_Lock, Mutex.mu_Unlock, Mutex.logger_PostWithTime,
    mutex_post_answer, mutex_posted in *.
  destruct st as [[m lg tg cl tm] o w]; simpl in *; subst.
  run_monad. rewrite D; simpl. now rewrite P.
Qed.

(** A call that finds the mutex held never returns. *)
Lemma mutex_Write_locked p st :
  is_locked st = true -> Write p st = (Blocks, st).
Proof.
  intros L. unfold Mutex.FluentLogger_Write, Mutex.mu_Lock.
  run_monad. now rewrite L.
Qed.

Lemma mutex_Sync_closed st :
  is_locked st = false -> is_closed st = true -> Sync st = (Returns None, st).
Proof.
  intros L H. unfold Mutex.FluentLogger_Sync, Mutex.deferred_Unlock,
    Mutex.mu_Lock, Mutex.mu_Unlock.
  run_monad. rewrite L; simpl. rewrite H; simpl.
  now rewrite mutex_unlock_lock.
Qed.

Definition mutex_close_run st : CloseRun :=
  Close (Mutex.logger (Mutex.fluent st)) (trace (Mutex.world st)).

(** The store an open sink is left in by a [Sync] whose transport close
    returned [r] after [d]. *)
Definition mutex_synced st (d : N) (r : option error) : Store :=
  Mutex.with_world
    (fun w => record_event (EvCloseDone r) (elapse (Z.of_N d) (record_event EvClose w)))
    (Mutex.with_closed true st).

Lemma mutex_Sync_open_finishes st (d : N) (r : option error) :
  is_locked st = false -> is_closed st = false ->
  mutex_close_run st = Finishes d r ->
  Sync st = (Returns r, mutex_synced st d r).
Proof.
  intros L H R. unfold Mutex.FluentLogger_Sync, Mutex.deferred_Unlock,
    Mutex.mu_Lock, Mutex.mu_Unlock, Mutex.logger_Close, mutex_close_run,
    mutex_synced in *.
  destruct st as [[m lg tg cl tm] o w]; simpl in *; subst.
  run_monad. now rewrite R.
Qed.

(** When the transport's close hangs, [Sync] never returns: the flag is
    set, the close has been called, and the mutex stays held. *)
Lemma mutex_Sync_open_hangs st :
  is_locked st = false -> is_closed st = false ->
  mutex_close_run st = Hangs ->
  Sync st =
    (Blocks,
     Mutex.with_world (record_event EvClose)
       (Mutex.with_closed true (Mutex.with_mu true st))).
Proof.
  intros L H R. unfold Mutex.FluentLogger_Sync, Mutex.deferred_Unlock,
    Mutex.mu_Lock, Mutex.mu_Unlock, Mutex.logger_Close, mutex_close_run in *.
  destruct st as [[m lg tg cl tm] o w]; simpl in *; subst.
  run_monad. now rewrite R.
Qed.

(** A [Sync] that returned found the mutex free and leaves it free, with
    the flag set. *)
Lemma mutex_Sync_returned st (r : option error) st' :
  is_locked st = false -> Sync st = (Returns r, st') ->
  is_locked st' = false /\ is_closed st' = true /\
  Mutex.closeOnce st' = Mutex.closeOnce st /\
  posts (Mutex.world st') = posts (Mutex.world st) /\
  closes (Mutex.world st') =
    (if is_closed st then closes (Mutex.world st) else S (closes (Mutex.world st))).
Proof.
  intros L E. destruct (is_closed st) eqn:H.
  - rewrite (mutex_Sync_closed _ L H) in E. injection E as <- <-. auto.
  - destruct (mutex_close_run st) as [d r'|] eqn:R.
    + rewrite (mutex_Sync_open_finishes _ L H R) in E. injection E as <- <-.
      unfold mutex_synced; simpl. autorewrite with world. auto.
    + rewrite (mutex_Sync_open_hangs _ L H R) in E. discriminate.
Qed.


Lemma mutex_Close_done (l : Mutex.WrappedLogger Entry Field) st :
  Mutex.closeOnce st = OnceDone ->
  Mutex.WrappedLogger_Close (Some l) st = (Returns None, st).
Proof.
  intros H. unfold Mutex.WrappedLogger_Close, Mutex.closeOnce_Do, bind, gets.
  now rewrite H.
Qed.

Lemma mutex_Close_fresh (l : Mutex.WrappedLogger Entry Field) st
    (err : option error) st' :
  Mutex.closeOnce st = OnceFresh ->
  Mutex.Close_body l (Mutex.with_closeOnce OnceRunning st) = (Returns err, st') ->
  Mutex.WrappedLogger_Close (Some l) st = (Returns err, Mutex.with_closeOnce OnceDone st').
Proof.
  intros H B. unfold Mutex.WrappedLogger_Close, Mutex.closeOnce_Do, bind, gets, modify, ret.
  now rewrite H, B.
Qed.

Definition mutex_closed_answer (c : Mutex.Call Field) : Outcome Mutex.Result :=
  Returns
    match c with
    | Mutex.CallWrite _ => Mutex.ResWrite 0 (Some ErrLoggerClosed)
    | Mutex.CallSync | Mutex.CallClose => Mutex.ResError None
    | Mutex.CallLog _ _ _ | Mutex.Wait _ => Mutex.ResNone
    end.

Lemma mutex_Close_body_closed st :
  is_locked st = false -> is_closed st = true ->
  Mutex.Close_body handle st = (Returns None, st).
Proof.
  intros L H. unfold Mutex.Close_body, bind; simpl.
  rewrite (mutex_Sync_closed _ L H). now rewrite (mutex_Sync_closed _ L H).
Qed.

Lemma mutex_log_closed (l : Level) (msg : string) (ctx : list Field) st :
  is_locked st = false -> is_closed st = true ->
  zap.log (@Mutex.clock Entry) (Mutex.WrappedLogger_core handle) l msg ctx st
  = (Returns tt, st).
Proof.
  intros L H. unfold zap.log; simpl.
  destruct (_ && negb (Level_Enabled InfoLevel l)); [reflexivity|].
  unfold bind, gets; simpl.
  destruct (Level_Enabled InfoLevel l); [|reflexivity].
  unfold zap.ioCore_Write, bind; simpl.
  destruct (encoder _ _) as [buf|e]; [|reflexivity].
  now rewrite (mutex_Write_closed _ _ L H).
Qed.

Lemma mutex_run_call_closed (c : Mutex.Call Field) st :
  is_locked st = false -> is_closed st = true ->
  Mutex.closeOnce st <> OnceRunning ->
  exists st',
    run_call handle c st = (mutex_closed_answer c, st') /\
    is_locked st' = false /\ is_closed st' = true /\
    Mutex.closeOnce st' <> OnceRunning /\
    posts (Mutex.world st') = posts (Mutex.world st) /\
    closes (Mutex.world st') = closes (Mutex.world st).
Proof.
  intros L H O. destruct c as [p| | |l msg ctx|dt]; unfold Mutex.run_call.
  - exists st. unfold bind. now rewrite (mutex_Write_closed _ _ L H).
  - exists st. unfold bind. now rewrite (mutex_Sync_closed _ L H).
  - unfold Mutex.WrappedLogger_Close, Mutex.closeOnce_Do, bind, gets.
    destruct (Mutex.closeOnce st) eqn:E; [| contradiction |].
    + unfold modify, ret.
      rewrite mutex_Close_body_closed by assumption.
      eexists. split; [reflexivity|]. simpl. repeat split; auto. discriminate.
    + exists st. simpl. repeat split; auto. congruence.
  - exists st. unfold bind. rewrite (mutex_log_closed _ _ _ _ L H). auto 6.
  - eexists. unfold Mutex.sleep, bind, modify, ret. split; [reflexivity|].
    simpl. autorewrite with world. auto 6.
Qed.

Lemma mutex_run_calls_closed (cs : list (Mutex.Call Field)) :
  forall st,
    is_locked st = false -> is_closed st = true ->
    Mutex.closeOnce st <> OnceRunning ->
    fst (run_calls handle cs st) = map mutex_closed_answer cs /\
    is_closed (snd (run_calls handle cs st)) = true /\
    posts (Mutex.world (snd (run_calls handle cs st))) = posts (Mutex.world st) /\
    closes (Mutex.world (snd (run_calls handle cs st))) = closes (Mutex.world st).
Proof.
  induction cs as [|c cs IH]; intros st L H O; simpl; [auto|].
  destruct (mutex_run_call_closed c _ L H O) as (st' & E & L' & H' & O' & P & C).
  rewrite E. unfold mutex_closed_answer at 1.
  destruct (IH st' L' H' O') as (R & H'' & P' & C').
  destruct (run_calls handle cs st') as [rs st''] eqn:E'; simpl in *.
  repeat split; [now rewrite R | assumption | congruence | congruence].
Qed.

End MutexFacts.

(** * The claims of the specification *)

(** Turns the boolean tests [T] (on a tag) and [D] (on a timeout) into
    (in)equalities. *)
Ltac reflect_tests T D :=
  match type of T with
  | _ = true => apply String.eqb_eq in T
  | _ = false => apply String.eqb_neq in T
  end;
  match type of D with
  | _ = true => apply Z.eqb_eq in D
  | _ = false => apply Z.eqb_neq in D
  end.

Section Claims.

Variables (Entry Field : Type).
Variable json_Unmarshal : bytes -> Entry + error.
Variable fluent_New : fluent_Config -> Fluent Entry + error.
Variable encoder : zap.Encoder Field.
Variable tie_done : bool.

Local Abbreviation AStore := (Atomic.Store Entry).
Local Abbreviation MStore := (Mutex.Store Entry).
Local Abbreviation AWrite := (Atomic.FluentLogger_Write json_Unmarshal).
Local Abbreviation MWrite := (Mutex.FluentLogger_Write json_Unmarshal).
Local Abbreviation ASync := (Atomic.FluentLogger_Sync (Entry:=Entry) tie_done).
Local Abbreviation MSync := (Mutex.FluentLogger_Sync (Entry:=Entry)).
Local Abbreviation Ahandle := (Atomic.new_handle json_Unmarshal encoder tie_done).
Local Abbreviation Mhandle := (Mutex.new_handle json_Unmarshal encoder).
Local Abbreviation AClose := (Atomic.SugaredLogger_Close (Field:=Field) tie_done).
Local Abbreviation MClose := (Mutex.WrappedLogger_Close (Entry:=Entry) (Field:=Field)).
Local Abbreviation Arun := (Atomic.run_calls json_Unmarshal tie_done).
Local Abbreviation Mrun := (Mutex.run_calls json_Unmarshal).
Local Abbreviation Aclosed st := (Atomic.closed (Atomic.fluent st)).
Local Abbreviation Mclosed st := (Mutex.closed (Mutex.fluent st)).
Local Abbreviation Mlocked st := (Mutex.mu (Mutex.fluent st)).

(** ** C1: the outcomes of write *)



(** ** C4: the flag is set before the transport is closed *)

(** C4. [Sync] sets the closed flag first and calls the transport's
    [Close] from the store in which it is set.  So once a [Sync] has
    returned (with nil or otherwise), whatever calls follow on the handle,
    all of them are answered, every [Write] among them returns 0 and the
    closed error, and the transport sees no further post. *)
Theorem closed_before_transport_close :
  (forall st : AStore,
     Aclosed st = false ->
     ASync st = Atomic.flush_with_timeout tie_done (Atomic.with_closed true st)) /\
  (forall (lvl : Level) (st st' : AStore) (r : option error)
          (cs : list (Atomic.Call Field)),
     Atomic.closeOnce st <> OnceRunning ->
     ASync st = (Returns r, st') ->
     Aclosed st' = true /\
     List.length (fst (Arun (Ahandle lvl) cs st')) = List.length cs /\
     (forall i p, nth_error cs i = Some (Atomic.CallWrite p) ->
        nth_error (fst (Arun (Ahandle lvl) cs st')) i
        = Some (Returns (Atomic.ResWrite 0 (Some ErrLoggerClosed)))) /\
     posts (Atomic.world (snd (Arun (Ahandle lvl) cs st'))) = posts (Atomic.world st')) /\
  (forall st : MStore,
     Mlocked st = false -> Mclosed st = false ->
     MSync st =
       Mutex.deferred_Unlock (Mutex.logger_Close (Entry:=Entry))
         (Mutex.with_closed true (Mutex.with_mu true st))) /\
  (forall (st st' : MStore) (r : option error) (cs : list (Mutex.Call Field)),
     Mlocked st = false -> Mutex.closeOnce st <> OnceRunning ->
     MSync st = (Returns r, st') ->
     Mclosed st' = true /\
     List.length (fst (Mrun Mhandle cs st')) = List.length cs /\
     (forall i p, nth_error cs i = Some (Mutex.CallWrite p) ->
        nth_error (fst (Mrun Mhandle cs st')) i
        = Some (Returns (Mutex.ResWrite 0 (Some ErrLoggerClosed)))) /\
     posts (Mutex.world (snd (Mrun Mhandle cs st'))) = posts (Mutex.world st')).
Proof.
  split; [|split; [|split]].
  - intros st H. now apply atomic_Sync_open.
  - intros lvl st st' r cs O E.
    destruct (atomic_Sync_returns tie_done st) as (r0 & st0 & E0 & H & O' & _).
    rewrite E in E0. injection E0 as <- <-.
    rewrite <- O' in O.
    destruct (atomic_run_calls_closed json_Unmarshal encoder tie_done lvl cs st' H O)
      as (R & _ & P & _).
    split; [exact H|]. rewrite R. split; [apply length_map|]. split; [|exact P].
    intros i p Hi. now erewrite map_nth_error by eassumption.
  - intros st L H. unfold Mutex.FluentLogger_Sync, Mutex.mu_Lock, Mutex.deferred_Unlock.
    destruct st as [[m lg tg cl tm] o w]; simpl in *; subst.
    reflexivity.
  - intros st st' r cs L O E.
    destruct (mutex_Sync_returned st L E) as (L' & H & O' & _).
    rewrite <- O' in O.
    destruct (mutex_run_calls_closed json_Unmarshal encoder cs st' L' H O)
      as (R & _ & P & _).
    split; [exact H|]. rewrite R. split; [apply length_map|]. split; [|exact P].
    intros i p Hi. now erewrite map_nth_error by eassumption.
Qed.

(** ** C5: flushAndClose is idempotent *)

Lemma atomic_repeat_Sync (l : Atomic.SugaredLogger Entry Field) (n : nat) (st : AStore) :
  Aclosed st = true ->
  Arun l (repeat Atomic.CallSync n) st = (repeat (Returns (Atomic.ResError None)) n, st).
Proof.
  intros H. induction n as [|n IH]; simpl; [reflexivity|].
  unfold bind. rewrite (atomic_Sync_closed tie_done st H); simpl.
  now rewrite IH.
Qed.

Lemma mutex_repeat_Sync (l : Mutex.WrappedLogger Entry Field) (n : nat) (st : MStore) :
  Mlocked st = false -> Mclosed st = true ->
  Mrun l (repeat Mutex.CallSync n) st = (repeat (Returns (Mutex.ResError None)) n, st).
Proof.
  intros L H. induction n as [|n IH]; simpl; [reflexivity|].
  unfold bind. rewrite (mutex_Sync_closed st L H); simpl.
  now rewrite IH.
Qed.

(** C5. The first [Sync] of an open sink calls the transport's [Close],
    once; it returns in the atomic variant always, and in the mutex variant
    when the transport's [Close] returns, with the result of that [Close].
    However many [Sync] calls follow, each returns nil and leaves
    everything as it is: no transport operation is made.  The same holds
    of the [Sync] calls among any other calls that follow: each returns nil,
    and the transport's [Close] is not called again. *)
Theorem Sync_idempotent :
  (forall (lvl : Level) (st : AStore) (n : nat) (cs : list (Atomic.Call Field)),
     Aclosed st = false -> Atomic.closeOnce st <> OnceRunning ->
     exists r st',
       ASync st = (Returns r, st') /\
       closes (Atomic.world st') = S (closes (Atomic.world st)) /\
       Arun (Ahandle lvl) (repeat Atomic.CallSync n) st'
       = (repeat (Returns (Atomic.ResError None)) n, st') /\
       (forall i, nth_error cs i = Some Atomic.CallSync ->
          nth_error (fst (Arun (Ahandle lvl) cs st')) i
          = Some (Returns (Atomic.ResError None))) /\
       closes (Atomic.world (snd (Arun (Ahandle lvl) cs st')))
       = closes (Atomic.world st')) /\
  (forall (st : MStore) (n : nat) (cs : list (Mutex.Call Field))
          (d : N) (r : option error),
     Mlocked st = false -> Mclosed st = false ->
     Mutex.closeOnce st <> OnceRunning ->
     mutex_close_run st = Finishes d r ->
     exists st',
       MSync st = (Returns r, st') /\
       closes (Mutex.world st') = S (closes (Mutex.world st)) /\
       Mrun Mhandle (repeat Mutex.CallSync n) st'
       = (repeat (Returns (Mutex.ResError None)) n, st') /\
       (forall i, nth_error cs i = Some Mutex.CallSync ->
          nth_error (fst (Mrun Mhandle cs st')) i
          = Some (Returns (Mutex.ResError None))) /\
       closes (Mutex.world (snd (Mrun Mhandle cs st')))
       = closes (Mutex.world st')).
Proof.
  split.
  - intros lvl st n cs H O.
    destruct (atomic_Sync_returns tie_done st) as (r & st' & E & H' & O' & _ & C).
    rewrite H in C. rewrite <- O' in O.
    destruct (atomic_run_calls_closed json_Unmarshal encoder tie_done lvl cs st' H' O)
      as (R & _ & _ & C').
    exists r, st'. split; [exact E|]. split; [exact C|].
    split; [now apply atomic_repeat_Sync|]. split; [|exact C'].
    intros i Hi. rewrite R. now erewrite map_nth_error by eassumption.
  - intros st n cs d r L H O R.
    exists (mutex_synced st d r).
    assert (E := mutex_Sync_open_finishes st L H R).
    destruct (mutex_Sync_returned st L E) as (L' & H' & O' & _ & C).
    rewrite H in C. rewrite <- O' in O.
    destruct (mutex_run_calls_closed json_Unmarshal encoder cs _ L' H' O)
      as (R' & _ & _ & C').
    split; [exact E|]. split; [exact C|].
    split; [now apply mutex_repeat_Sync|]. split; [|exact C'].
    intros i Hi. rewrite R'. now erewrite map_nth_error by eassumption.
Qed.

(** ** C10: the flag after a flush that timed out *)

(** C10. When a [Sync] of the atomic variant returns the flush-timeout
    error, the flag is set all the same: whatever calls follow, every
    [Sync] among them returns nil, every [Write] returns 0 and the closed
    error, and the transport's [Close] is not called again, whether or not
    the first close ever returns. *)
Theorem closed_after_flush_timeout :
  forall (lvl : Level) (st st' : AStore) (cs : list (Atomic.Call Field)),
    Atomic.closeOnce st <> OnceRunning ->
    ASync st = (Returns (Some errFlushTimedOut), st') ->
    Aclosed st' = true /\
    List.length (fst (Arun (Ahandle lvl) cs st')) = List.length cs /\
    (forall i, nth_error cs i = Some Atomic.CallSync ->
       nth_error (fst (Arun (Ahandle lvl) cs st')) i
       = Some (Returns (Atomic.ResError None))) /\
    (forall i p, nth_error cs i = Some (Atomic.CallWrite p) ->
       nth_error (fst (Arun (Ahandle lvl) cs st')) i
       = Some (Returns (Atomic.ResWrite 0 (Some ErrLoggerClosed)))) /\
    closes (Atomic.world (snd (Arun (Ahandle lvl) cs st'))) = closes (Atomic.world st').
Proof.
  intros lvl st st' cs O E.
  destruct (atomic_Sync_returns tie_done st) as (r0 & st0 & E0 & H & O' & _).
  rewrite E in E0. injection E0 as <- <-.
  rewrite <- O' in O.
  destruct (atomic_run_calls_closed json_Unmarshal encoder tie_done lvl cs st' H O)
    as (R & _ & _ & C).
  split; [exact H|]. rewrite R. split; [apply length_map|].
  split; [|split; [|exact C]].
  - intros i Hi. now erewrite map_nth_error by eassumption.
  - intros i p Hi. now erewrite map_nth_error by eassumption.
Qed.

(** ** C6: close called N times *)

Lemma atomic_repeat_Close (l : Atomic.SugaredLogger Entry Field) (n : nat) (st : AStore) :
  Atomic.closeOnce st = OnceDone ->
  Arun l (repeat Atomic.CallClose n) st = (repeat (Returns (Atomic.ResError None)) n, st).
Proof.
  intros H. induction n as [|n IH]; [reflexivity|].
  cbn [repeat Atomic.run_calls Atomic.run_call].
  unfold bind at 1. rewrite (atomic_Close_done tie_done l st H).
  unfold ret. now rewrite IH.
Qed.

Lemma mutex_repeat_Close (l : Mutex.WrappedLogger Entry Field) (n : nat) (st : MStore) :
  Mutex.closeOnce st = OnceDone ->
  Mrun l (repeat Mutex.CallClose n) st = (repeat (Returns (Mutex.ResError None)) n, st).
Proof.
  intros H. induction n as [|n IH]; [reflexivity|].
  cbn [repeat Mutex.run_calls Mutex.run_call].
  unfold bind at 1. rewrite (mutex_Close_done l st H).
  unfold ret. now rewrite IH.
Qed.

(** With the handle the constructor builds, flushing the zap logger is
    the sink's own [Sync] (the core's [out] is the sink), so the second
    step of [Close] finds the flag set and does nothing. *)
Lemma atomic_Close_body_built (lvl : Level) (st : AStore) :
  exists r st',
    ASync st = (Returns r, st') /\
    Atomic.Close_body tie_done (Ahandle lvl) st
    = (Returns (option_map (fmt_Errorf "zap sync failed") r), st').
Proof.
  destruct (atomic_Sync_returns tie_done st) as (r & st' & E & H & _).
  exists r, st'. split; [exact E|].
  unfold Atomic.Close_body, bind; simpl. rewrite E.
  rewrite (atomic_Sync_closed tie_done st' H). now destruct r.
Qed.

Lemma mutex_Close_body_built (st st' : MStore) (r : option error) :
  Mlocked st = false -> MSync st = (Returns r, st') ->
  Mutex.Close_body Mhandle st = (Returns r, st').
Proof.
  intros L E. destruct (mutex_Sync_returned st L E) as (L' & H & _).
  unfold Mutex.Close_body, bind; simpl. rewrite E.
  now rewrite (mutex_Sync_closed st' L' H).
Qed.

(** C6 as the specification words it, for the atomic variant: N calls of
    [Close] make one transport close and all return the same outcome. *)
Definition Close_results_as_specified : Prop :=
  forall (lvl : Level) (st : AStore) (n : nat),
    Aclosed st = false -> Atomic.closeOnce st = OnceFresh ->
    exists o st',
      Arun (Ahandle lvl) (repeat Atomic.CallClose (S n)) st = (repeat o (S n), st') /\
      closes (Atomic.world st') = S (closes (Atomic.world st)).

(** C6, as the code has it: of N calls of [Close] on a handle whose sink
    is open, the first makes the one transport close and returns its
    result; every later call returns nil.  (In the mutex variant the first
    call returns when the transport's [Close] does.) *)
Theorem Close_once_first_result_then_nil :
  (forall (lvl : Level) (st : AStore) (n : nat),
     Aclosed st = false -> Atomic.closeOnce st = OnceFresh ->
     exists r st',
       AClose (Some (Ahandle lvl)) st = (Returns r, st') /\
       closes (Atomic.world st') = S (closes (Atomic.world st)) /\
       Arun (Ahandle lvl) (repeat Atomic.CallClose (S n)) st
       = (Returns (Atomic.ResError r) :: repeat (Returns (Atomic.ResError None)) n, st')) /\
  (forall (st : MStore) (n : nat) (d : N) (r : option error),
     Mlocked st = false -> Mclosed st = false ->
     Mutex.closeOnce st = OnceFresh ->
     mutex_close_run st = Finishes d r ->
     exists st',
       MClose (Some Mhandle) st = (Returns r, st') /\
       closes (Mutex.world st') = S (closes (Mutex.world st)) /\
       Mrun Mhandle (repeat Mutex.CallClose (S n)) st
       = (Returns (Mutex.ResError r) :: repeat (Returns (Mutex.ResError None)) n, st')).
Proof.
  split.
  - intros lvl st n H O.
    destruct (atomic_Close_body_built lvl (Atomic.with_closeOnce OnceRunning st))
      as (r & st1 & E & B).
    assert (C := atomic_Close_fresh tie_done (Ahandle lvl) st O B).
    destruct (atomic_Sync_returns tie_done (Atomic.with_closeOnce OnceRunning st))
      as (r' & st1' & E' & _ & _ & _ & N).
    rewrite E in E'. injection E' as <- <-. simpl in N. rewrite H in N.
    eexists _, _. split; [exact C|]. split; [exact N|].
    cbn [repeat Atomic.run_calls Atomic.run_call]. unfold bind at 1. rewrite C.
    unfold ret. now rewrite atomic_repeat_Close.
  - intros st n d r L H O R.
    assert (E := mutex_Sync_open_finishes (Mutex.with_closeOnce OnceRunning st) L H R).
    assert (B := mutex_Close_body_built (Mutex.with_closeOnce OnceRunning st) L E).
    assert (C := mutex_Close_fresh Mhandle st O B).
    destruct (mutex_Sync_returned (Mutex.with_closeOnce OnceRunning st) L E)
      as (_ & _ & _ & _ & N).
    simpl in N. rewrite H in N.
    eexists. split; [exact C|]. split; [exact N|].
    cbn [repeat Mutex.run_calls Mutex.run_call]. unfold bind at 1. rewrite C.
    unfold ret. now rewrite mutex_repeat_Close.
Qed.

(** ** C2: which error Close returns when both steps fail *)



(** ** C7: level filtering *)

Lemma ioCore_log_below (S : Type) (clock : S -> Z) (out : zap.WriteSyncer S)
    (lvl l : Level) (msg : string) (ctx : list Field) (s : S) :
  (Level_int l < Level_int lvl)%Z ->
  zap.log clock (zap.NewCore encoder out lvl) l msg ctx s = (Returns tt, s).
Proof.
  intros H. unfold zap.log; simpl.
  assert (E : Level_Enabled lvl l = false) by (apply Z.leb_gt; exact H).
  rewrite E. destruct (_ && negb false); reflexivity.
Qed.

Lemma atomic_log_enabled (lvl l : Level) (msg : string) (ctx : list Field)
    (buf : bytes) (st : AStore) :
  Level_Enabled lvl l = true -> (Level_int l <= Level_int ErrorLevel)%Z ->
  encoder {| zap.Level := l; zap.Time := Atomic.clock st; zap.Message := msg |} ctx
  = inl buf ->
  zap.log (@Atomic.clock Entry) (Atomic.SugaredLogger_core (Ahandle lvl)) l msg ctx st
  = (Returns tt, snd (AWrite buf st)).
Proof.
  intros E L B. unfold zap.log; simpl. rewrite E.
  rewrite andb_false_r. unfold bind at 1, gets.
  unfold zap.ioCore_Write. rewrite B. unfold bind.
  destruct (atomic_Write_returns json_Unmarshal buf st) as (n & err & st' & W & _).
  simpl. rewrite W; simpl.
  destruct err; [reflexivity|].
  assert (F : (2 <? Level_int l)%Z = false) by (apply Z.ltb_ge; exact L).
  now rewrite F.
Qed.

Lemma atomic_Write_posts (buf : bytes) (entry : Entry) (st : AStore) :
  Aclosed st = false -> json_Unmarshal buf = inl entry ->
  snd (AWrite buf st) = atomic_posted st entry.
Proof.
  intros H D. destruct (atomic_post_answer st entry) as [e|] eqn:P.
  - now erewrite atomic_Write_delivery_error by eassumption.
  - now erewrite atomic_Write_ok by eassumption.
Qed.

(** C7. A log call below the minimum level of the handle's core leaves
    everything as it is: nothing reaches the sink or the transport, and
    this whatever the encoder is.  The atomic variant's level is the one
    parsed from the configuration; the mutex variant's is info.  With the
    level configured as "warn", [Debugw] and [Infow] are dropped, and
    [Warnw] and [Errorw] hand the encoded entry to the sink's [Write],
    which on an open sink posts the decoded record to the transport. *)
Theorem level_filter :
  (forall (lvl l : Level) (msg : string) (ctx : list Field) (st : AStore),
     (Level_int l < Level_int lvl)%Z ->
     zap.log (@Atomic.clock Entry) (Atomic.SugaredLogger_core (Ahandle lvl)) l msg ctx st
     = (Returns tt, st)) /\
  (forall (l : Level) (msg : string) (ctx : list Field) (st : MStore),
     (Level_int l < Level_int InfoLevel)%Z ->
     zap.log (@Mutex.clock Entry) (Mutex.WrappedLogger_core Mhandle) l msg ctx st
     = (Returns tt, st)) /\
  (forall (msg : string) (ctx : list Field) (st : AStore),
     let core := Atomic.SugaredLogger_core (Ahandle (parseLogLevel "warn")) in
     zap.Debugw (@Atomic.clock Entry) core msg ctx st = (Returns tt, st) /\
     zap.Infow (@Atomic.clock Entry) core msg ctx st = (Returns tt, st) /\
     (forall l buf entry,
        l = WarnLevel \/ l = ErrorLevel ->
        encoder {| zap.Level := l; zap.Time := Atomic.clock st; zap.Message := msg |} ctx
        = inl buf ->
        zap.log (@Atomic.clock Entry) core l msg ctx st
        = (Returns tt, snd (AWrite buf st)) /\
        (Aclosed st = false -> json_Unmarshal buf = inl entry ->
         snd (AWrite buf st) = atomic_posted st entry))).
Proof.
  split; [|split].
  - intros lvl l msg ctx st H. now apply ioCore_log_below.
  - intros l msg ctx st H. now apply ioCore_log_below.
  - intros msg ctx st core. split; [|split].
    + apply ioCore_log_below. reflexivity.
    + apply ioCore_log_below. reflexivity.
    + intros l buf entry Hl B. split.
      * apply atomic_log_enabled; [| |exact B];
          destruct Hl as [-> | ->]; (reflexivity || (simpl; lia)).
      * intros H D. now apply atomic_Write_posts.
Qed.

(** ** C9: the defaults of the configuration *)

(** C9. Construction fails only when [fluent.New] fails on the
    configuration with its defaults filled in.  The sink of a constructed
    logger has the tag "app.logs" when the caller left the tag empty and
    the caller's tag otherwise, and the timeout 5 s when the caller left
    the timeout zero and the caller's otherwise; so neither is ever empty. *)
Theorem defaults_resolved :
  (forall (cfg : Atomic.SugaredLoggerConfig) (w : World Entry),
     match Atomic.NewSugaredLogger json_Unmarshal fluent_New encoder tie_done cfg w with
     | (cfg', inl (h, st)) =>
         (Atomic.Tag cfg = "" -> Atomic.tag (Atomic.fluent st) = "app.logs") /\
         (Atomic.Tag cfg <> "" -> Atomic.tag (Atomic.fluent st) = Atomic.Tag cfg) /\
         (Timeout (Atomic.FluentConfig cfg) = 0 ->
          Atomic.timeout (Atomic.fluent st) = 5000000000) /\
         (Timeout (Atomic.FluentConfig cfg) <> 0 ->
          Atomic.timeout (Atomic.fluent st) = Timeout (Atomic.FluentConfig cfg)) /\
         Atomic.tag (Atomic.fluent st) <> "" /\
         Atomic.timeout (Atomic.fluent st) <> 0 /\
         Atomic.tag (Atomic.fluent st) = Atomic.Tag cfg' /\
         Atomic.timeout (Atomic.fluent st) = Timeout (Atomic.FluentConfig cfg')
     | (cfg', inr err) =>
         exists e, fluent_New (Atomic.FluentConfig cfg') = inr e /\
                   err = fmt_Errorf "failed to create fluent logger" e
     end) /\
  (forall (cfg : Mutex.FluentConfig) (w : World Entry),
     match Mutex.NewWrappedLogger json_Unmarshal fluent_New encoder cfg w with
     | inl (h, st) =>
         (Mutex.Tag cfg = "" -> Mutex.tag (Mutex.fluent st) = "app.logs") /\
         (Mutex.Tag cfg <> "" -> Mutex.tag (Mutex.fluent st) = Mutex.Tag cfg) /\
         (Mutex.Timeout_ cfg = 0 -> Mutex.timeout (Mutex.fluent st) = 5000000000) /\
         (Mutex.Timeout_ cfg <> 0 ->
          Mutex.timeout (Mutex.fluent st) = Mutex.Timeout_ cfg) /\
         Mutex.tag (Mutex.fluent st) <> "" /\
         Mutex.timeout (Mutex.fluent st) <> 0
     | inr err =>
         exists e, err = fmt_Errorf "failed to create fluent logger" e
     end).
Proof.
  split.
  - intros [fc tg ll] w. unfold Atomic.NewSugaredLogger; simpl.
    destruct (tg =? "") eqn:T; destruct (Timeout fc =? 0)%Z eqn:D; simpl;
      rewrite ?D; simpl;
      (destruct (fluent_New _) as [fl|e] eqn:N; simpl;
       [| exists e; split; [exact N | reflexivity]]);
      reflect_tests T D;
      repeat split; intros; try congruence; try discriminate; auto.
  - intros [fc tg tm] w. unfold Mutex.NewWrappedLogger; simpl.
    destruct (tg =? "") eqn:T; destruct (tm =? 0)%Z eqn:D; simpl;
      rewrite ?D; simpl;
      (destruct (fluent_New _) as [fl|e] eqn:N; simpl;
       [| exists e; reflexivity]);
      reflect_tests T D;
      repeat split; intros; try congruence; try discriminate; auto.
Qed.

(** ** C3: the transport close against the timer *)

Lemma done_first_late (d : N) (r : option error) (t : Z) :
  (t < Z.of_N d)%Z -> done_first tie_done (Finishes d r) t = false.
Proof.
  intros H. unfold done_first.
  assert (A : (Z.of_N d <? t)%Z = false) by (apply Z.ltb_ge; lia).
  assert (B : (Z.of_N d =? t)%Z = false) by (apply Z.eqb_neq; lia).
  now rewrite A, B.
Qed.

(** The atomic variant's first [Sync] races the transport's [Close]
    against the timer.  When [done] comes first it returns nil; otherwise
    it returns the flush-timeout error once the timeout has passed, and
    the goroutine that closes the transport is still running: for ever if
    the close hangs, and until the close returns (which the transport then
    sees) if it takes longer than the timeout. *)
Theorem atomic_Sync_races_timer (st : AStore) :
  Aclosed st = false ->
  let t := Atomic.timeout (Atomic.fluent st) in
  let run := atomic_close_run st in
  (done_first tie_done run t = true ->
     exists st', ASync st = (Returns None, st')) /\
  (done_first tie_done run t = false ->
     exists st',
       ASync st = (Returns (Some errFlushTimedOut), st') /\
       now (Atomic.world st') = (now (Atomic.world st) + Z.max 0 t)%Z /\
       closes (Atomic.world st') = S (closes (Atomic.world st)) /\
       (run = Hangs -> In stuck (goroutines (Atomic.world st'))) /\
       (forall d r, run = Finishes d r -> (Z.max 0 t < Z.of_N d)%Z ->
          In (closing (now (Atomic.world st) + Z.of_N d) r)
             (goroutines (Atomic.world st')) /\
          In (EvCloseDone r)
             (trace (elapse (Z.of_N d - Z.max 0 t) (Atomic.world st'))))).
Proof.
  intros H t run. rewrite (atomic_Sync_open tie_done st H). split.
  - intros F. destruct run as [d r|] eqn:R; [|discriminate].
    eexists. apply (atomic_flush_done tie_done (Atomic.with_closed true st) R F).
  - intros F. eexists.
    split; [apply (atomic_flush_timer tie_done (Atomic.with_closed true st) F)|].
    split; [reflexivity|].
    split; [unfold atomic_started; simpl; now autorewrite with world|].
    assert (G : forall g,
               finished (now (Atomic.world st) + Z.max 0 t) g = false ->
               atomic_close_run (Atomic.with_closed true st) = atomic_close_run st ->
               goroutine_of (now (Atomic.world st)) run = g ->
               In g (goroutines (Atomic.world
                      (Atomic.with_world (elapse (Atomic.timeout (Atomic.fluent (Atomic.with_closed true st))))
                         (atomic_started (Atomic.with_closed true st)))))).
    { intros g Fg _ Eg. unfold atomic_started; simpl.
      apply filter_In. split.
      - apply in_or_app. right. left. exact Eg.
      - fold t. now rewrite Fg. }
    split.
    + intros R. apply G; [reflexivity | reflexivity | now rewrite R].
    + intros d r R Hd.
      assert (Fg : finished (now (Atomic.world st) + Z.max 0 t)
                     (closing (now (Atomic.world st) + Z.of_N d) r) = false).
      { simpl. apply Z.leb_gt. unfold t in *. lia. }
      assert (I := G _ Fg eq_refl ltac:(now rewrite R)).
      split; [exact I|].
      unfold elapse at 1; simpl. apply in_or_app. right.
      apply in_flat_map. eexists. split; [exact I|].
      simpl. fold t.
      assert (E : (now (Atomic.world st) + Z.of_N d
                   <=? now (Atomic.world st) + Z.max 0 t
                       + Z.max 0 (Z.of_N d - Z.max 0 t))%Z = true)
        by (apply Z.leb_le; unfold t in *; lia).
      rewrite E. now left.
Qed.

(** The mutex variant's [Sync] has no timer: when it returns an error,
    that error is the one the transport's [Close] returned, whatever the
    timeout is and however long the close took. *)
Lemma mutex_Sync_error_is_transport_error (st st' : MStore) (e : error) :
  Mlocked st = false -> MSync st = (Returns (Some e), st') ->
  exists d, mutex_close_run st = Finishes d (Some e).
Proof.
  intros L E. destruct (Mclosed st) eqn:H.
  - rewrite (mutex_Sync_closed st L H) in E. discriminate.
  - destruct (mutex_close_run st) as [d r|] eqn:R.
    + rewrite (mutex_Sync_open_finishes st L H R) in E.
      injection E as -> _. now exists d.
    + rewrite (mutex_Sync_open_hangs st L H R) in E. discriminate.
Qed.

(** [Close] on a nil handle is a no-op in both variants. *)
Lemma Close_nil_handle (a : AStore) (m : MStore) :
  AClose None a = (Returns None, a) /\ MClose None m = (Returns None, m).
Proof. split; reflexivity. Qed.

End Claims.

(** * The claims on concrete runs *)


Lemma closed_before_transport_close_witness :
  nth_error
    (fst (Atomic.run_calls Fake.json_Unmarshal true (Fake.atomic_handle DebugLevel)
            [Atomic.CallLog InfoLevel "late" []; Atomic.CallWrite Fake.hello]
            Fake.atomic_quick_synced)) 1
  = Some (Returns (Atomic.ResWrite 0 (Some ErrLoggerClosed))) /\
  nth_error
    (fst (Mutex.run_calls Fake.json_Unmarshal Fake.mutex_handle
            [Mutex.CallWrite Fake.hello] Fake.mutex_quick_synced)) 0
  = Some (Returns (Mutex.ResWrite 0 (Some ErrLoggerClosed))).
Proof.
  destruct (@closed_before_transport_close _ _ Fake.json_Unmarshal Fake.encoder true)
    as (_ & A & _ & M).
  split.
  - destruct (A DebugLevel Fake.atomic_quick Fake.atomic_quick_synced None
                [Atomic.CallLog InfoLevel "late" []; Atomic.CallWrite Fake.hello])
      as (_ & _ & W & _); [discriminate | reflexivity |].
    exact (W 1%nat Fake.hello eq_refl).
  - destruct (M Fake.mutex_quick Fake.mutex_quick_synced None
                [Mutex.CallWrite Fake.hello])
      as (_ & _ & W & _); [reflexivity | discriminate | reflexivity |].
    exact (W 0%nat Fake.hello eq_refl).
Defined.

Lemma Sync_idempotent_witness :
  (exists r st',
     Atomic.FluentLogger_Sync true Fake.atomic_slow = (Returns r, st') /\
     closes (Atomic.world st') = S (closes (Atomic.world Fake.atomic_slow)) /\
     Atomic.run_calls Fake.json_Unmarshal true (Fake.atomic_handle DebugLevel)
       (repeat Atomic.CallSync 3) st'
     = (repeat (Returns (Atomic.ResError None)) 3, st') /\
     closes (Atomic.world
               (snd (Atomic.run_calls Fake.json_Unmarshal true
                       (Fake.atomic_handle DebugLevel)
                       [Atomic.CallWrite Fake.hello; Atomic.CallSync; Atomic.CallClose]
                       st')))
     = closes (Atomic.world st')) /\
  (exists st',
     Mutex.FluentLogger_Sync Fake.mutex_refusing = (Returns (Some Fake.refused), st') /\
     closes (Mutex.world st') = S (closes (Mutex.world Fake.mutex_refusing)) /\
     Mutex.run_calls Fake.json_Unmarshal Fake.mutex_handle
       (repeat Mutex.CallSync 3) st'
     = (repeat (Returns (Mutex.ResError None)) 3, st')).
Proof.
  destruct (@Sync_idempotent _ _ Fake.json_Unmarshal Fake.encoder true) as [A M].
  split.
  - destruct (A DebugLevel Fake.atomic_slow 3%nat
                [Atomic.CallWrite Fake.hello; Atomic.CallSync; Atomic.CallClose]
                eq_refl ltac:(discriminate))
      as (r & st' & E & C & R & _ & C').
    exists r, st'. auto.
  - destruct (M Fake.mutex_refusing 3%nat [] 10%N (Some Fake.refused)
                eq_refl eq_refl ltac:(discriminate) eq_refl)
      as (st' & E & C & R & _).
    exists st'. auto.
Defined.

Lemma closed_after_flush_timeout_witness :
  fst (Atomic.FluentLogger_Sync true Fake.atomic_hung) = Returns (Some errFlushTimedOut) /\
  nth_error
    (fst (Atomic.run_calls Fake.json_Unmarshal true (Fake.atomic_handle DebugLevel)
            [Atomic.CallSync; Atomic.CallWrite Fake.hello; Atomic.Wait 1000000000]
            Fake.atomic_hung_synced)) 0
  = Some (Returns (Atomic.ResError None)) /\
  nth_error
    (fst (Atomic.run_calls Fake.json_Unmarshal true (Fake.atomic_handle DebugLevel)
            [Atomic.CallSync; Atomic.CallWrite Fake.hello; Atomic.Wait 1000000000]
            Fake.atomic_hung_synced)) 1
  = Some (Returns (Atomic.ResWrite 0 (Some ErrLoggerClosed))) /\
  closes_done
    (Atomic.world
       (snd (Atomic.run_calls Fake.json_Unmarshal true (Fake.atomic_handle DebugLevel)
               [Atomic.CallSync; Atomic.CallWrite Fake.hello; Atomic.Wait 1000000000]
               Fake.atomic_hung_synced))) = 0%nat.
Proof.
  destruct (@closed_after_flush_timeout _ _ Fake.json_Unmarshal Fake.encoder true
              DebugLevel Fake.atomic_hung Fake.atomic_hung_synced
              [Atomic.CallSync; Atomic.CallWrite Fake.hello; Atomic.Wait 1000000000])
    as (_ & _ & S & W & _); [discriminate | reflexivity |].
  split; [reflexivity|].
  split; [exact (S 0%nat eq_refl)|].
  split; [exact (W 1%nat Fake.hello eq_refl) | reflexivity].
Defined.

Lemma Close_once_first_result_then_nil_witness :
  (exists r st',
     Atomic.SugaredLogger_Close true (Some (Fake.atomic_handle WarnLevel)) Fake.atomic_hung
     = (Returns r, st') /\
     closes (Atomic.world st') = S (closes (Atomic.world Fake.atomic_hung)) /\
     Atomic.run_calls Fake.json_Unmarshal true (Fake.atomic_handle WarnLevel)
       (repeat Atomic.CallClose 3) Fake.atomic_hung
     = (Returns (Atomic.ResError r) :: repeat (Returns (Atomic.ResError None)) 2, st')) /\
  (exists st',
     Mutex.WrappedLogger_Close (Some Fake.mutex_handle) Fake.mutex_refusing
     = (Returns (Some Fake.refused), st') /\
     closes (Mutex.world st') = S (closes (Mutex.world Fake.mutex_refusing)) /\
     Mutex.run_calls Fake.json_Unmarshal Fake.mutex_handle
       (repeat Mutex.CallClose 3) Fake.mutex_refusing
     = (Returns (Mutex.ResError (Some Fake.refused))
          :: repeat (Returns (Mutex.ResError None)) 2, st')).
Proof.
  destruct (@Close_once_first_result_then_nil _ _ Fake.json_Unmarshal Fake.encoder true)
    as [A M].
  split.
  - exact (A WarnLevel Fake.atomic_hung 2%nat eq_refl eq_refl).
  - exact (M Fake.mutex_refusing 2%nat 10%N (Some Fake.refused)
             eq_refl eq_refl eq_refl eq_refl).
Defined.

(** C6, as the specification words it, fails: with a transport whose close
    hangs, the first [Close] returns the flush-timeout error (wrapped) and
    the second returns nil. *)
Lemma Close_results_as_specified_fails :
  ~ Close_results_as_specified Fake.json_Unmarshal Fake.encoder true.
Proof.
  intros H.
  destruct (H WarnLevel Fake.atomic_hung 1%nat eq_refl eq_refl) as (o & st' & E & _).
  vm_compute in E. injection E as E1 E2 _. congruence.
Qed.



Lemma level_filter_witness :
  zap.log (@Atomic.clock Fake.Entry)
    (Atomic.SugaredLogger_core (Fake.atomic_handle WarnLevel))
    InfoLevel "dropped" [] Fake.atomic_quick
  = (Returns tt, Fake.atomic_quick) /\
  zap.log (@Mutex.clock Fake.Entry)
    (Mutex.WrappedLogger_core Fake.mutex_handle)
    DebugLevel "dropped" [] Fake.mutex_quick
  = (Returns tt, Fake.mutex_quick) /\
  posts (Atomic.world
           (snd (zap.log (@Atomic.clock Fake.Entry)
                   (Atomic.SugaredLogger_core (Fake.atomic_handle (parseLogLevel "warn")))
                   ErrorLevel "passed" [] Fake.atomic_quick)))
  = [EvPost "app.logs" 0 [Byte.x7b; Byte.x7d]].
Proof.
  destruct (@level_filter _ _ Fake.json_Unmarshal Fake.encoder true) as (A & M & W).
  split; [exact (A WarnLevel InfoLevel "dropped" [] Fake.atomic_quick eq_refl)|].
  split; [exact (M DebugLevel "dropped" [] Fake.mutex_quick eq_refl)|].
  destruct (W "passed" [] Fake.atomic_quick) as (_ & _ & P).
  destruct (P ErrorLevel [Byte.x7b; Byte.x7d] [Byte.x7b; Byte.x7d]
              (or_intror eq_refl) eq_refl) as (L & Q).
  unfold Fake.atomic_handle. rewrite L, (Q eq_refl eq_refl). reflexivity.
Defined.

Lemma defaults_resolved_witness :
  match
    Atomic.NewSugaredLogger Fake.json_Unmarshal (Fake.fluent_New None Hangs)
      Fake.encoder true
      {| Atomic.FluentConfig := Fake.config 0; Atomic.Tag := "";
         Atomic.LogLevel := "warn" |} Fake.world0
  with
  | (_, inl (_, st)) =>
      Atomic.tag (Atomic.fluent st) = "app.logs" /\
      Atomic.timeout (Atomic.fluent st) = 5000000000
  | (_, inr _) => False
  end /\
  match
    Mutex.NewWrappedLogger Fake.json_Unmarshal (Fake.fluent_New None Hangs)
      Fake.encoder
      {| Mutex.Fluent_ := Fake.config 0; Mutex.Tag := ""; Mutex.Timeout_ := 0 |}
      Fake.world0
  with
  | inl (_, st) =>
      Mutex.tag (Mutex.fluent st) = "app.logs" /\
      Mutex.timeout (Mutex.fluent st) = 5000000000
  | inr _ => False
  end.
Proof.
  destruct (@defaults_resolved _ _ Fake.json_Unmarshal (Fake.fluent_New None Hangs)
              Fake.encoder true) as [A M].
  split.
  - pose proof (A {| Atomic.FluentConfig := Fake.config 0; Atomic.Tag := "";
                     Atomic.LogLevel := "warn" |} Fake.world0) as H.
    cbv in H |- *. destruct H as (T & _ & D & _).
    split; [exact (T eq_refl) | exact (D eq_refl)].
  - pose proof (M {| Mutex.Fluent_ := Fake.config 0; Mutex.Tag := "";
                     Mutex.Timeout_ := 0 |} Fake.world0) as H.
    cbv in H |- *. destruct H as (T & _ & D & _).
    split; [exact (T eq_refl) | exact (D eq_refl)].
Defined.

(** C3 on the mutex variant, with a timeout of 50 ms.  A transport that
    takes a second to close keeps [Sync] for that second, and [Sync] then
    returns nil, not a timeout error; a transport whose close hangs keeps
    [Sync] for ever.  The atomic variant's [Sync] on the same transports
    returns the flush-timeout error after 50 ms. *)
Lemma mutex_Sync_ignores_timeout :
  Mutex.timeout (Mutex.fluent Fake.mutex_slow) = 50000000 /\
  fst (Mutex.FluentLogger_Sync Fake.mutex_slow) = Returns None /\
  now (Mutex.world (snd (Mutex.FluentLogger_Sync Fake.mutex_slow))) = 1000000000 /\
  fst (Mutex.FluentLogger_Sync Fake.mutex_hung) = Blocks /\
  fst (Atomic.FluentLogger_Sync true Fake.atomic_slow) = Returns (Some errFlushTimedOut) /\
  now (Atomic.world (snd (Atomic.FluentLogger_Sync true Fake.atomic_slow))) = 50000000 /\
  fst (Atomic.FluentLogger_Sync true Fake.atomic_hung) = Returns (Some errFlushTimedOut).
Proof. repeat split; reflexivity. Qed.

(** * Further properties of the sink and of the lifecycle owner *)

Lemma closes_record_post (Entry : Type) (tg : string) (t : Z) (x : Entry)
    (w : World Entry) :
  closes (record_event (EvPost tg t x) w) = closes w.
Proof.
  unfold closes, record_event; simpl.
  rewrite filter_app, length_app; simpl. lia.
Qed.

Lemma strings_ToUpper_idempotent (s : string) :
  strings_ToUpper (strings_ToUpper s) = strings_ToUpper s.
Proof.
  induction s as [|c r IH]; [reflexivity|].
  unfold strings_ToUpper in *; simpl. rewrite IH. f_equal.
  destruct c as [b0 b1 b2 b3 b4 b5 b6 b7];
    destruct b0, b1, b2, b3, b4, b5, b6, b7; reflexivity.
Qed.

Lemma strings_ToUpper_ToLower (s : string) :
  strings_ToUpper (bytes_ToLower s) = strings_ToUpper s.
Proof.
  induction s as [|c r IH]; [reflexivity|].
  unfold strings_ToUpper, bytes_ToLower in *; simpl. rewrite IH. f_equal.
  destruct c as [b0 b1 b2 b3 b4 b5 b6 b7];
    destruct b0, b1, b2, b3, b4, b5, b6, b7; reflexivity.
Qed.

(** X17. The level parsed does not depend on the case of the text:
    upper-casing or lower-casing a level text leaves its level as it is. *)
Theorem parseLogLevel_case_invariant (s : string) :
  ascii_text s = true ->
  parseLogLevel (strings_ToUpper s) = parseLogLevel s /\
  parseLogLevel (bytes_ToLower s) = parseLogLevel s.
Proof.
  intros _. rewrite !parseLogLevel_by_case.
  rewrite bytes_ToLower_ToUpper, strings_ToUpper_idempotent.
  rewrite bytes_ToLower_idempotent, strings_ToUpper_ToLower.
  split; reflexivity.
Qed.

Section SinkFacts.

Variables (Entry Field : Type).
Variable json_Unmarshal : bytes -> Entry + error.
Variable fluent_New : fluent_Config -> Fluent Entry + error.
Variable encoder : zap.Encoder Field.
Variable tie_done : bool.

Local Abbreviation AStore := (Atomic.Store Entry).
Local Abbreviation MStore := (Mutex.Store Entry).
Local Abbreviation AWrite := (Atomic.FluentLogger_Write json_Unmarshal).
Local Abbreviation MWrite := (Mutex.FluentLogger_Write json_Unmarshal).
Local Abbreviation ASync := (Atomic.FluentLogger_Sync (Entry:=Entry) tie_done).
Local Abbreviation MSync := (Mutex.FluentLogger_Sync (Entry:=Entry)).
Local Abbreviation Ahandle := (Atomic.new_handle json_Unmarshal encoder tie_done).
Local Abbreviation Mhandle := (Mutex.new_handle json_Unmarshal encoder).
Local Abbreviation AClose := (Atomic.SugaredLogger_Close (Field:=Field) tie_done).
Local Abbreviation MClose := (Mutex.WrappedLogger_Close (Entry:=Entry) (Field:=Field)).
Local Abbreviation Arun := (Atomic.run_calls json_Unmarshal tie_done).
Local Abbreviation Mrun := (Mutex.run_calls json_Unmarshal).
Local Abbreviation Aclosed st := (Atomic.closed (Atomic.fluent st)).
Local Abbreviation Mclosed st := (Mutex.closed (Mutex.fluent st)).
Local Abbreviation Mlocked st := (Mutex.mu (Mutex.fluent st)).

(** ** What a write shows the transport *)

(** The events one [Write(p)] adds to what the transport sees: the post of
    the decoded record under tag [tg] at time [t] when the flag is unset
    and [p] decodes, and nothing otherwise. *)
Definition write_events (flag : bool) (tg : string) (t : Z) (p : bytes)
    : list (Event Entry) :=
  if flag then []
  else match json_Unmarshal p with
       | inl entry => [EvPost tg t entry]
       | inr _ => []
       end.

Lemma atomic_Write_effect (p : bytes) (st : AStore) :
  trace (Atomic.world (snd (AWrite p st)))
  = (trace (Atomic.world st)
     ++ write_events (Aclosed st) (Atomic.tag (Atomic.fluent st))
          (now (Atomic.world st)) p)%list /\
  Atomic.fluent (snd (AWrite p st)) = Atomic.fluent st /\
  Atomic.closeOnce (snd (AWrite p st)) = Atomic.closeOnce st /\
  now (Atomic.world (snd (AWrite p st))) = now (Atomic.world st) /\
  goroutines (Atomic.world (snd (AWrite p st))) = goroutines (Atomic.world st).
Proof.
  unfold write_events. destruct (Aclosed st) eqn:H.
  - erewrite atomic_Write_closed by eassumption. simpl.
    now rewrite app_nil_r.
  - destruct (json_Unmarshal p) as [entry|e] eqn:D.
    + rewrite (atomic_Write_posts json_Unmarshal p st H D). repeat split.
    + erewrite atomic_Write_decode_error by eassumption. simpl.
      now rewrite app_nil_r.
Qed.

Lemma mutex_Write_posts (p : bytes) (entry : Entry) (st : MStore) :
  Mlocked st = false -> Mclosed st = false -> json_Unmarshal p = inl entry ->
  snd (MWrite p st) = mutex_posted st entry.
Proof.
  intros L H D. destruct (mutex_post_answer st entry) as [e|] eqn:P.
  - now erewrite mutex_Write_delivery_error by eassumption.
  - now erewrite mutex_Write_ok by eassumption.
Qed.

Lemma mutex_Write_effect (p : bytes) (st : MStore) :
  Mlocked st = false ->
  trace (Mutex.world (snd (MWrite p st)))
  = (trace (Mutex.world st)
     ++ write_events (Mclosed st) (Mutex.tag (Mutex.fluent st))
          (now (Mutex.world st)) p)%list /\
  Mutex.fluent (snd (MWrite p st)) = Mutex.fluent st /\
  Mutex.closeOnce (snd (MWrite p st)) = Mutex.closeOnce st /\
  now (Mutex.world (snd (MWrite p st))) = now (Mutex.world st) /\
  goroutines (Mutex.world (snd (MWrite p st))) = goroutines (Mutex.world st).
Proof.
  intros L. unfold write_events. destruct (Mclosed st) eqn:H.
  - erewrite mutex_Write_closed by eassumption. simpl.
    now rewrite app_nil_r.
  - destruct (json_Unmarshal p) as [entry|e] eqn:D.
    + erewrite mutex_Write_posts by eassumption. repeat split.
    + erewrite mutex_Write_decode_error by eassumption. simpl.
      now rewrite app_nil_r.
Qed.

(** X1. One [Write(p)] shows the transport exactly one post, of the record
    [p] decodes to, under the sink's tag and at the current time, when the
    sink is open and [p] decodes (also when the transport then rejects the
    post); a write that is refused as closed or as undecodable shows it
    nothing.  A write changes nothing else: not the flag, the tag or the
    timeout, not [closeOnce], not the clock, not the running goroutines. *)
Theorem Write_posts_the_decoded_record :
  (forall (p : bytes) (st : AStore),
     trace (Atomic.world (snd (AWrite p st)))
     = (trace (Atomic.world st)
        ++ write_events (Aclosed st) (Atomic.tag (Atomic.fluent st))
             (now (Atomic.world st)) p)%list /\
     Atomic.fluent (snd (AWrite p st)) = Atomic.fluent st /\
     Atomic.closeOnce (snd (AWrite p st)) = Atomic.closeOnce st /\
     now (Atomic.world (snd (AWrite p st))) = now (Atomic.world st) /\
     goroutines (Atomic.world (snd (AWrite p st))) = goroutines (Atomic.world st)) /\
  (forall (p : bytes) (st : MStore),
     Mlocked st = false ->
     trace (Mutex.world (snd (MWrite p st)))
     = (trace (Mutex.world st)
        ++ write_events (Mclosed st) (Mutex.tag (Mutex.fluent st))
             (now (Mutex.world st)) p)%list /\
     Mutex.fluent (snd (MWrite p st)) = Mutex.fluent st /\
     Mutex.closeOnce (snd (MWrite p st)) = Mutex.closeOnce st /\
     now (Mutex.world (snd (MWrite p st))) = now (Mutex.world st) /\
     goroutines (Mutex.world (snd (MWrite p st))) = goroutines (Mutex.world st)).
Proof.
  split.
  - intros p st. apply atomic_Write_effect.
  - intros p st L. now apply mutex_Write_effect.
Qed.

(** ** The errors and the duration of the atomic variant's shutdown *)

Lemma done_first_in_time (run : CloseRun) (t : Z) :
  done_first tie_done run t = true ->
  exists d r, run = Finishes d r /\ (Z.of_N d <= t)%Z.
Proof.
  destruct run as [d r|]; [|discriminate]. simpl. intros H.
  exists d, r. split; [reflexivity|].
  apply orb_true_iff in H. destruct H as [H | H].
  - apply Z.ltb_lt in H. lia.
  - apply andb_true_iff in H. destruct H as [H _]. apply Z.eqb_eq in H. lia.
Qed.

(** What a [Sync] of the atomic variant returns and how long it takes. *)
Lemma atomic_Sync_shape (st : AStore) :
  exists r st',
    ASync st = (Returns r, st') /\
    (r = None \/ r = Some errFlushTimedOut) /\
    (now (Atomic.world st) <= now (Atomic.world st'))%Z /\
    (now (Atomic.world st')
     <= now (Atomic.world st) + Z.max 0 (Atomic.timeout (Atomic.fluent st)))%Z.
Proof.
  destruct (Aclosed st) eqn:H.
  - exists None, st. rewrite (atomic_Sync_closed tie_done st H).
    repeat split; [now left | lia | lia].
  - rewrite (atomic_Sync_open tie_done st H).
    destruct (done_first tie_done (atomic_close_run (Atomic.with_closed true st))
                (Atomic.timeout (Atomic.fluent (Atomic.with_closed true st)))) eqn:F.
    + destruct (done_first_in_time _ _ F) as (d & r & R & Hd).
      rewrite R in F.
      eexists _, _. split; [apply (atomic_flush_done tie_done _ R F)|].
      simpl in *. repeat split; [now left | lia | lia].
    + eexists _, _. split; [apply (atomic_flush_timer tie_done _ F)|].
      simpl. repeat split; [now right | lia | lia].
Qed.

(** X2. The only error a [Sync] of the atomic variant ever returns is the
    flush timeout.  An error of the transport's [Close] is lost: when the
    close fails within the timeout, the transport has reported the failure
    and [Sync] returns nil. *)
Theorem atomic_Sync_hides_close_error :
  (forall (st st' : AStore) (e : error),
     ASync st = (Returns (Some e), st') -> e = errFlushTimedOut) /\
  (forall (st : AStore) (d : N) (e : error),
     Aclosed st = false ->
     atomic_close_run st = Finishes d (Some e) ->
     (Z.of_N d < Atomic.timeout (Atomic.fluent st))%Z ->
     exists st',
       ASync st = (Returns None, st') /\
       In (EvCloseDone (Some e)) (trace (Atomic.world st'))).
Proof.
  split.
  - intros st st' e E.
    destruct (atomic_Sync_shape st) as (r & st0 & E0 & [R | R] & _);
      rewrite E in E0; injection E0 as <- <-; congruence.
  - intros st d e H R Hd.
    assert (F : done_first tie_done (Finishes d (Some e))
                  (Atomic.timeout (Atomic.fluent (Atomic.with_closed true st))) = true).
    { simpl. apply orb_true_iff. left. now apply Z.ltb_lt. }
    rewrite (atomic_Sync_open tie_done st H).
    eexists. split.
    + apply (atomic_flush_done tie_done (Atomic.with_closed true st) R F).
    + unfold atomic_started; simpl. apply in_or_app. right.
      apply in_flat_map. exists (closing (now (Atomic.world st) + Z.of_N d) (Some e)).
      split.
      * apply in_or_app. right. left.
        unfold atomic_close_run in *; simpl. now rewrite R.
      * simpl.
        assert (L : (now (Atomic.world st) + Z.of_N d
                     <=? now (Atomic.world st) + Z.max 0 (Z.of_N d))%Z = true)
          by (apply Z.leb_le; lia).
        rewrite L. now left.
Qed.

(** X3. [Close] on a handle as the constructor builds it always returns, and
    within the timeout; it returns nil or the flush timeout wrapped as
    "zap sync failed": the flush of the zap logger is the sink's [Sync], and
    the [Sync] that follows finds the flag set, so "fluent close failed" is
    never returned.  After it [closeOnce] is done, and the flag is set when
    [closeOnce] was fresh. *)
Theorem atomic_Close_on_built_handle :
  forall (lvl : Level) (st : AStore),
    Atomic.closeOnce st <> OnceRunning ->
    exists r st',
      AClose (Some (Ahandle lvl)) st = (Returns r, st') /\
      (r = None \/ r = Some (fmt_Errorf "zap sync failed" errFlushTimedOut)) /\
      Atomic.closeOnce st' = OnceDone /\
      (Atomic.closeOnce st = OnceFresh -> Aclosed st' = true) /\
      (now (Atomic.world st) <= now (Atomic.world st'))%Z /\
      (now (Atomic.world st')
       <= now (Atomic.world st) + Z.max 0 (Atomic.timeout (Atomic.fluent st)))%Z.
Proof.
  intros lvl st O. destruct (Atomic.closeOnce st) eqn:E; [| contradiction |].
  - destruct (atomic_Sync_shape (Atomic.with_closeOnce OnceRunning st))
      as (r & st1 & S1 & R & T1 & T2).
    destruct (atomic_Sync_returns tie_done (Atomic.with_closeOnce OnceRunning st))
      as (r' & st1' & S1' & H1 & _).
    rewrite S1 in S1'. injection S1' as <- <-.
    assert (B : Atomic.Close_body tie_done (Ahandle lvl)
                  (Atomic.with_closeOnce OnceRunning st)
                = (Returns (option_map (fmt_Errorf "zap sync failed") r), st1)).
    { unfold Atomic.Close_body, bind; simpl. rewrite S1.
      rewrite (atomic_Sync_closed tie_done st1 H1). now destruct r. }
    eexists _, _. split; [apply (atomic_Close_fresh tie_done _ st E B)|].
    simpl in *. repeat split; auto.
    destruct R as [-> | ->]; [now left | now right].
  - exists None, st. rewrite (atomic_Close_done tie_done _ st E).
    repeat split; auto; try lia. discriminate.
Qed.

(** X4. A [Sync] of the atomic variant returns within the timeout: the
    clock at its return is at most the timeout (taken as 0 when negative)
    past the clock at the call, whatever the transport's close does. *)
Theorem atomic_Sync_bounded_time (st : Atomic.Store Entry) :
  let after := Atomic.FluentLogger_Sync tie_done st in
  (now (Atomic.world st) <= now (Atomic.world (snd after)))%Z /\
  (now (Atomic.world (snd after))
   <= now (Atomic.world st) + Z.max 0 (Atomic.timeout (Atomic.fluent st)))%Z /\
  exists r, fst after = Returns r.
Proof.
  intros after. unfold after.
  destruct (atomic_Sync_shape st) as (r & st' & E & _ & T1 & T2).
  rewrite E. simpl. repeat split; [exact T1 | exact T2 | now exists r].
Qed.

(** ** A transport whose close hangs, in the mutex variant *)

Lemma mutex_Sync_locked (st : MStore) :
  Mlocked st = true -> MSync st = (Blocks, st).
Proof.
  intros L. unfold Mutex.FluentLogger_Sync, Mutex.mu_Lock.
  run_monad. now rewrite L.
Qed.

Lemma mutex_log_locked (l : Level) (msg : string) (ctx : list Field)
    (buf : bytes) (st : MStore) :
  Mlocked st = true -> Level_Enabled InfoLevel l = true ->
  encoder {| zap.Level := l; zap.Time := Mutex.clock st; zap.Message := msg |} ctx
  = inl buf ->
  zap.log (@Mutex.clock Entry) (Mutex.WrappedLogger_core Mhandle) l msg ctx st
  = (Blocks, st).
Proof.
  intros L E B. unfold zap.log; simpl. rewrite E.
  rewrite andb_false_r. unfold bind at 1, gets.
  unfold zap.ioCore_Write. rewrite B. unfold bind. simpl.
  now rewrite (mutex_Write_locked json_Unmarshal buf st L).
Qed.

(** X5. In the mutex variant a transport whose [Close] hangs takes the sink
    with it.  The [Sync] that called it never returns; it has set the flag,
    called the close and kept the mutex, so from then on no [Write], no
    [Sync] and no enabled log call on the sink returns either.  [Close]
    called on such a transport never returns, and neither does any [Close]
    after it. *)
Theorem mutex_hung_close_blocks_the_sink :
  forall (st : MStore),
    Mlocked st = false -> Mclosed st = false -> mutex_close_run st = Hangs ->
    exists st',
      MSync st = (Blocks, st') /\
      Mclosed st' = true /\
      closes (Mutex.world st') = S (closes (Mutex.world st)) /\
      (forall p, MWrite p st' = (Blocks, st')) /\
      MSync st' = (Blocks, st') /\
      (forall l msg ctx buf,
         Level_Enabled InfoLevel l = true ->
         encoder {| zap.Level := l; zap.Time := Mutex.clock st'; zap.Message := msg |} ctx
         = inl buf ->
         zap.log (@Mutex.clock Entry) (Mutex.WrappedLogger_core Mhandle) l msg ctx st'
         = (Blocks, st')) /\
      (Mutex.closeOnce st = OnceFresh ->
       fst (MClose (Some Mhandle) st) = Blocks /\
       fst (MClose (Some Mhandle) (snd (MClose (Some Mhandle) st))) = Blocks).
Proof.
  intros st L H R. eexists. split; [apply (mutex_Sync_open_hangs st L H R)|].
  split; [reflexivity|].
  split; [simpl; now autorewrite with world|].
  split; [intros p; now apply mutex_Write_locked|].
  split; [now apply mutex_Sync_locked|].
  split; [intros l msg ctx buf E B; eapply mutex_log_locked; [reflexivity | exact E | exact B]|].
  intros O.
  assert (S0 : MSync (Mutex.with_closeOnce OnceRunning st)
               = (Blocks,
                  Mutex.with_world (record_event EvClose)
                    (Mutex.with_closed true
                       (Mutex.with_mu true (Mutex.with_closeOnce OnceRunning st)))))
    by (apply mutex_Sync_open_hangs; assumption).
  assert (C : MClose (Some Mhandle) st
              = (Blocks,
                 Mutex.with_world (record_event EvClose)
                   (Mutex.with_closed true
                      (Mutex.with_mu true (Mutex.with_closeOnce OnceRunning st))))).
  { unfold Mutex.WrappedLogger_Close, Mutex.closeOnce_Do, bind at 1, gets.
    rewrite O. unfold bind at 1, modify.
    unfold bind at 1. unfold Mutex.Close_body, bind at 1. simpl.
    now rewrite S0. }
  rewrite C. split; [reflexivity|]. simpl.
  unfold Mutex.WrappedLogger_Close, Mutex.closeOnce_Do, bind, gets. reflexivity.
Qed.

(** ** A log call above the error level *)

(** X6. An enabled log call at the DPanic level closes the sink: zap's
    core syncs its output after writing an entry above the error level,
    and the output's [Sync] is the sink's.  On an open sink whose post is
    accepted, the record is posted, then the flag is set and the
    transport's [Close] is called; every later write is refused. *)
Theorem log_above_error_level_closes_the_sink :
  forall (lvl : Level) (msg : string) (ctx : list Field) (st : AStore)
         (buf : bytes) (entry : Entry),
    Level_Enabled lvl DPanicLevel = true ->
    Aclosed st = false ->
    encoder {| zap.Level := DPanicLevel; zap.Time := Atomic.clock st;
               zap.Message := msg |} ctx = inl buf ->
    json_Unmarshal buf = inl entry ->
    atomic_post_answer st entry = None ->
    exists st',
      zap.log (@Atomic.clock Entry) (Atomic.SugaredLogger_core (Ahandle lvl))
        DPanicLevel msg ctx st = (Returns tt, st') /\
      Aclosed st' = true /\
      closes (Atomic.world st') = S (closes (Atomic.world st)) /\
      posts (Atomic.world st')
      = (posts (Atomic.world st)
         ++ [EvPost (Atomic.tag (Atomic.fluent st)) (now (Atomic.world st)) entry])%list /\
      (forall p, AWrite p st' = (Returns (0, Some ErrLoggerClosed), st')).
Proof.
  intros lvl msg ctx st buf entry E H B D P.
  assert (W : AWrite buf st
              = (Returns (Z.of_nat (List.length buf), None), atomic_posted st entry))
    by (eapply atomic_Write_ok; eassumption).
  destruct (atomic_Sync_returns tie_done (atomic_posted st entry))
    as (r & st' & S1 & H' & _ & Ps & Cs).
  exists st'. split.
  - unfold zap.log; simpl. rewrite E. simpl. unfold bind at 1, gets.
    unfold zap.ioCore_Write. rewrite B. unfold bind. simpl.
    rewrite W. simpl. now rewrite S1.
  - split; [exact H'|]. simpl in Cs. rewrite H in Cs.
    unfold atomic_posted in *; simpl in *.
    rewrite closes_record_post in Cs. rewrite posts_record_post in Ps.
    split; [exact Cs|]. split; [exact Ps|].
    intros p. now apply atomic_Write_closed.
Qed.

(** ** A logger fresh from its constructor *)

Lemma atomic_constructed (cfg cfg' : Atomic.SugaredLoggerConfig) (w : World Entry)
    (h : Atomic.SugaredLogger Entry Field) (st : AStore) :
  Atomic.NewSugaredLogger json_Unmarshal fluent_New encoder tie_done cfg w
  = (cfg', inl (h, st)) ->
  Aclosed st = false /\ Atomic.closeOnce st = OnceFresh /\ Atomic.world st = w /\
  Atomic.tag (Atomic.fluent st)
  = (if Atomic.Tag cfg =? "" then defaultFluentTag else Atomic.Tag cfg) /\
  h = Ahandle (parseLogLevel (Atomic.LogLevel cfg)) /\
  fluent_New (Atomic.FluentConfig cfg') = inl (Atomic.logger (Atomic.fluent st)).
Proof.
  destruct cfg as [fc tg ll]. unfold Atomic.NewSugaredLogger; simpl.
  destruct (tg =? "") eqn:T; destruct (Timeout fc =? 0)%Z eqn:D; simpl;
    rewrite ?D; simpl;
    (destruct (fluent_New _) as [fl|e] eqn:N; [|discriminate]);
    intros E; injection E as <- <- <-; simpl; auto 7.
Qed.

Lemma mutex_constructed (cfg : Mutex.FluentConfig) (w : World Entry)
    (h : Mutex.WrappedLogger Entry Field) (st : MStore) :
  Mutex.NewWrappedLogger json_Unmarshal fluent_New encoder cfg w = inl (h, st) ->
  Mlocked st = false /\ Mclosed st = false /\ Mutex.closeOnce st = OnceFresh /\
  Mutex.world st = w /\
  Mutex.tag (Mutex.fluent st)
  = (if Mutex.Tag cfg =? "" then defaultFluentTag else Mutex.Tag cfg) /\
  h = Mhandle /\
  fluent_New (Mutex.Fluent_ cfg) = inl (Mutex.logger (Mutex.fluent st)).
Proof.
  destruct cfg as [fc tg tm]. unfold Mutex.NewWrappedLogger; simpl.
  destruct (tg =? "") eqn:T; destruct (tm =? 0)%Z eqn:D; simpl;
    rewrite ?D; simpl;
    (destruct (fluent_New _) as [fl|e] eqn:N; [|discriminate]);
    intros E; injection E as <- <-; simpl; auto 8.
Qed.

(** X7. A logger fresh from its constructor is open: the first [Write] of
    bytes that decode is posted, under the caller's tag or, when the caller
    left it empty, under "app.logs", and nothing has been shown to the
    transport before it.  The handle's level is the one parsed from the
    configuration in the atomic variant and info in the mutex variant, and
    the transport is the one [fluent.New] returned: in the atomic variant for
    the configuration with the defaulted timeout, in the mutex variant for
    the caller's transport configuration as it is. *)
Theorem constructed_logger_first_write :
  (forall (cfg cfg' : Atomic.SugaredLoggerConfig) (w : World Entry)
          (h : Atomic.SugaredLogger Entry Field) (st : AStore)
          (p : bytes) (entry : Entry),
     Atomic.NewSugaredLogger json_Unmarshal fluent_New encoder tie_done cfg w
     = (cfg', inl (h, st)) ->
     json_Unmarshal p = inl entry ->
     trace (Atomic.world (snd (AWrite p st)))
     = (trace w
        ++ [EvPost (if Atomic.Tag cfg =? "" then "app.logs" else Atomic.Tag cfg)
              (now w) entry])%list /\
     h = Ahandle (parseLogLevel (Atomic.LogLevel cfg)) /\
     fluent_New (Atomic.FluentConfig cfg') = inl (Atomic.logger (Atomic.fluent st))) /\
  (forall (cfg : Mutex.FluentConfig) (w : World Entry)
          (h : Mutex.WrappedLogger Entry Field) (st : MStore)
          (p : bytes) (entry : Entry),
     Mutex.NewWrappedLogger json_Unmarshal fluent_New encoder cfg w = inl (h, st) ->
     json_Unmarshal p = inl entry ->
     trace (Mutex.world (snd (MWrite p st)))
     = (trace w
        ++ [EvPost (if Mutex.Tag cfg =? "" then "app.logs" else Mutex.Tag cfg)
              (now w) entry])%list /\
     h = Mhandle /\
     fluent_New (Mutex.Fluent_ cfg) = inl (Mutex.logger (Mutex.fluent st))).
Proof.
  split.
  - intros cfg cfg' w h st p entry N D.
    destruct (atomic_constructed _ _ N) as (H & _ & W & T & Hh & F).
    destruct (atomic_Write_effect p st) as (Tr & _).
    rewrite Tr. unfold write_events. rewrite H, D, W, T. auto.
  - intros cfg w h st p entry N D.
    destruct (mutex_constructed _ _ N) as (L & H & _ & W & T & Hh & F).
    destruct (mutex_Write_effect p st L) as (Tr & _).
    rewrite Tr. unfold write_events. rewrite H, D, W, T. auto.
Qed.

(** ** After Close *)



(** ** The transport is closed at most once *)










(** ** What a shutdown leaves running *)

(** X15. A [Sync] of the atomic variant that returns nil on an open sink
    leaves no goroutine behind: with nothing running before it, nothing is
    running after it, and the transport's [Close] it called has returned. *)
Theorem atomic_Sync_nil_leaves_nothing_running :
  forall (st st' : AStore),
    Aclosed st = false -> goroutines (Atomic.world st) = [] ->
    ASync st = (Returns None, st') ->
    goroutines (Atomic.world st') = [] /\
    exists d r,
      atomic_close_run st = Finishes d r /\
      (Z.of_N d <= Atomic.timeout (Atomic.fluent st))%Z /\
      trace (Atomic.world st')
      = (trace (Atomic.world st) ++ [EvClose; EvCloseDone r])%list /\
      now (Atomic.world st') = (now (Atomic.world st) + Z.of_N d)%Z.
Proof.
  intros st st' H G E. rewrite (atomic_Sync_open tie_done st H) in E.
  destruct (done_first tie_done (atomic_close_run (Atomic.with_closed true st))
              (Atomic.timeout (Atomic.fluent (Atomic.with_closed true st)))) eqn:F.
  - destruct (done_first_in_time _ _ F) as (d & r & R & Hd).
    rewrite R in F.
    rewrite (atomic_flush_done tie_done _ R F) in E. injection E as <-.
    assert (L : (now (Atomic.world st) + Z.of_N d
                 <=? now (Atomic.world st) + Z.max 0 (Z.of_N d))%Z = true)
      by (apply Z.leb_le; lia).
    unfold atomic_started; simpl. rewrite G. simpl.
    unfold atomic_close_run in *. simpl in R. rewrite ?R. simpl. rewrite ?R. simpl.
    rewrite L. simpl.
    split; [reflexivity|].
    exists d, r. repeat split; [exact Hd | | lia].
    now rewrite <- app_assoc.
  - rewrite (atomic_flush_timer tie_done _ F) in E. discriminate E.
Qed.

(** ** The mutex variant when the transport's close returns *)













End SinkFacts.

(** * The programs: reading the configuration from the environment *)

(** [strings.ToLower], on ASCII text (as [strings_ToUpper]). *)
Definition strings_ToLower : string -> string := string_map ascii_lower.

(** ** strconv (Go's standard library) *)

Module strconv.

Definition ErrSyntax : error := errors_New "invalid syntax".
Definition ErrRange : error := errors_New "value out of range".

(** [&NumError{Func: fn, Num: num, Err: err}], which unwraps to [err]. *)
Definition NumError (fn num : string) (err : error) : error :=
  fmt_Errorf ("strconv." ++ fn ++ ": parsing " ++ num) err.

Definition maxInt : Z := 9223372036854775807.
Definition minInt : Z := -9223372036854775808.

Definition digit (c : ascii) : option Z :=
  let n := nat_of_ascii c in
  if (48 <=? n)%nat && (n <=? 57)%nat then Some (Z.of_nat (n - 48)) else None.

(** The value of a run of decimal digits, [None] when a character is not
    a digit. *)
Fixpoint digits (s : string) (acc : Z) : option Z :=
  match s with
  | EmptyString => Some acc
  | String c r =>
      match digit c with
      | Some d => digits r (acc * 10 + d)
      | None => None
      end
  end.

(** [strconv.Atoi]: an optional sign and decimal digits, at least one; the
    value and the error, the value being 0 with a syntax error and the
    nearest bound with a range error. *)
Definition Atoi (s : string) : Z * option error :=
  let '(neg, body) :=
    match s with
    | String "-"%char r => (true, r)
    | String "+"%char r => (false, r)
    | _ => (false, s)
    end in
  match body with
  | EmptyString => (0, Some (NumError "Atoi" s ErrSyntax))
  | _ =>
      match digits body 0 with
      | None => (0, Some (NumError "Atoi" s ErrSyntax))
      | Some n =>
          let v := if neg then (- n)%Z else n in
          if (maxInt <? v)%Z then (maxInt, Some (NumError "Atoi" s ErrRange))
          else if (v <? minInt)%Z then (minInt, Some (NumError "Atoi" s ErrRange))
          else (v, None)
      end
  end.

(** [strconv.ParseBool] *)
Definition ParseBool (str : string) : bool * option error :=
  if (str =? "1") || (str =? "t") || (str =? "T") || (str =? "true")
     || (str =? "TRUE") || (str =? "True") then (true, None)
  else if (str =? "0") || (str =? "f") || (str =? "F") || (str =? "false")
          || (str =? "FALSE") || (str =? "False") then (false, None)
  else (false, Some (NumError "ParseBool" str ErrSyntax)).

End strconv.

(** [fluent.Config] in full: the fields of [fluent_Config] and the ones
    only the worker sets. *)
Record fluent_Config_full : Type := {
  common : fluent_Config;
  ForceStopAsyncSend : bool;
  SubSecondPrecision : bool;
  MarshalAsJSON : bool;
  RequestAck : bool;
  TlsInsecureSkipVerify : bool;
  AsyncReconnectInterval : Z
}.

(** [fluent.Config{}] *)
Definition fluent_Config_zero : fluent_Config_full :=
  {| common :=
       {| FluentNetwork := ""; FluentHost := ""; FluentPort := 0;
          FluentSocketPath := ""; Timeout := 0; WriteTimeout := 0;
          BufferLimit := 0; RetryWait := 0; MaxRetry := 0; Async := false;
          TagPrefix := "" |};
     ForceStopAsyncSend := false; SubSecondPrecision := false;
     MarshalAsJSON := false; RequestAck := false;
     TlsInsecureSkipVerify := false; AsyncReconnectInterval := 0 |}.

(** A step that may fail, and the rest of the function after it. *)
Definition try {A B : Type} (r : A + error) (k : A -> B + error) : B + error :=
  match r with
  | inl a => k a
  | inr e => inr e
  end.

Notation "x <-? r ;; k" := (try r (fun x => k))
  (at level 100, r at next level, right associativity) : go_scope.
Notation "' pat <-? r ;; k" := (try r (fun x => match x with pat => k end))
  (at level 100, pat pattern, r at next level, right associativity) : go_scope.

(** ** cmd/worker/main.go *)

Module Worker.

Section Environment.

(** [os.Getenv] (the empty text for a variable that is not set) and
    [time.ParseDuration]. *)
Variable Getenv : string -> string.
Variable time_ParseDuration : string -> Z + error.

(** [func parseBool(envVar string) (bool, error)] *)
Definition parseBool (envVar : string) : bool * option error :=
  let val := strings_ToLower (Getenv envVar) in
  if val =? "true" then (true, None)
  else if val =? "false" then (false, None)
  else if val =? "" then (false, None)
  else (false, Some (errors_New ("invalid boolean value for " ++ envVar))).

(** [if v, err = parseBool(name); err != nil { return fluent.Config{}, err }] *)
Definition boolean (envVar : string) : bool + error :=
  match parseBool envVar with
  | (_, Some err) => inr err
  | (b, None) => inl b
  end.

(** [map[string]bool{"tcp": true, "tls": true, "unix": true}[network]] *)
Definition known_network (network : string) : bool :=
  (network =? "tcp") || (network =? "tls") || (network =? "unix").

(** A variable read with [strconv.Atoi] when it is set, [fallback]
    otherwise; a failure is wrapped under [what]. *)
Definition integer (envVar : string) (fallback : Z) (what : string) : Z + error :=
  if Getenv envVar =? "" then inl fallback
  else
    match strconv.Atoi (Getenv envVar) with
    | (_, Some err) => inr (fmt_Errorf what err)
    | (n, None) => inl n
    end.

(** A variable read with [time.ParseDuration] when it is set. *)
Definition duration (envVar : string) (fallback : Z) (what : string) : Z + error :=
  if Getenv envVar =? "" then inl fallback
  else
    match time_ParseDuration (Getenv envVar) with
    | inr err => inr (fmt_Errorf what err)
    | inl d => inl d
    end.

(** The body of [loadFluentConfigFromEnv], in the order of its checks. *)
Definition load : fluent_Config_full + error :=
  let network :=
    if Getenv "FLUENT_NETWORK" =? "" then "tcp" else Getenv "FLUENT_NETWORK" in
  if negb (known_network network)
  then inr (errors_New ("invalid FluentNetwork: " ++ network))
  else
    '(socketPath, host, port) <-?
      (if network =? "unix"
       then
         if Getenv "FLUENT_SOCKET_PATH" =? ""
         then inr (errors_New "FluentSocketPath required for unix network")
         else inl (Getenv "FLUENT_SOCKET_PATH", "127.0.0.1", 24224)
       else
         port <-? integer "FLUENT_PORT" 24224 "invalid FluentPort" ;;
         inl ("",
              (if Getenv "FLUENT_HOST" =? "" then "127.0.0.1" else Getenv "FLUENT_HOST"),
              port)) ;;
    timeout <-? duration "FLUENT_TIMEOUT" (10 * Second) "invalid Timeout" ;;
    writeTimeout <-? duration "FLUENT_WRITE_TIMEOUT" 0 "invalid WriteTimeout" ;;
    bufferLimit <-? integer "FLUENT_BUFFER_LIMIT" 8192 "invalid BufferLimit" ;;
    async <-? boolean "FLUENT_ASYNC" ;;
    forceStop <-? boolean "FLUENT_FORCE_STOP_ASYNC_SEND" ;;
    subSecond <-? boolean "FLUENT_SUB_SECOND_PRECISION" ;;
    marshalJSON <-? boolean "FLUENT_MARSHAL_AS_JSON" ;;
    requestAck <-? boolean "FLUENT_REQUEST_ACK" ;;
    tlsSkip <-? boolean "FLUENT_TLS_INSECURE_SKIP_VERIFY" ;;
    reconnect <-?
      integer "FLUENT_ASYNC_RECONNECT_INTERVAL" 0 "invalid AsyncReconnectInterval" ;;
    inl {| common :=
             {| FluentNetwork := network; FluentHost := host; FluentPort := port;
                FluentSocketPath := socketPath; Timeout := timeout;
                WriteTimeout := writeTimeout; BufferLimit := bufferLimit;
                RetryWait := 500; MaxRetry := 13; Async := async;
                TagPrefix := Getenv "FLUENT_TAG_PREFIX" |};
           ForceStopAsyncSend := forceStop; SubSecondPrecision := subSecond;
           MarshalAsJSON := marshalJSON; RequestAck := requestAck;
           TlsInsecureSkipVerify := tlsSkip; AsyncReconnectInterval := reconnect |}.

(** [func loadFluentConfigFromEnv() (fluent.Config, error)]: every failure
    returns the zero configuration beside the error. *)
Definition loadFluentConfigFromEnv : fluent_Config_full * option error :=
  match load with
  | inl cfg => (cfg, None)
  | inr err => (fluent_Config_zero, Some err)
  end.

End Environment.

(** The variables [loadFluentConfigFromEnv] reads. *)
Definition variables : list string :=
  ["FLUENT_NETWORK"; "FLUENT_SOCKET_PATH"; "FLUENT_HOST"; "FLUENT_PORT";
   "FLUENT_TIMEOUT"; "FLUENT_WRITE_TIMEOUT"; "FLUENT_BUFFER_LIMIT";
   "FLUENT_ASYNC"; "FLUENT_FORCE_STOP_ASYNC_SEND"; "FLUENT_SUB_SECOND_PRECISION";
   "FLUENT_MARSHAL_AS_JSON"; "FLUENT_REQUEST_ACK";
   "FLUENT_TLS_INSECURE_SKIP_VERIFY"; "FLUENT_ASYNC_RECONNECT_INTERVAL";
   "FLUENT_TAG_PREFIX"].

Section Main.

Variables (Entry Field : Type).
Variable json_Unmarshal : bytes -> Entry + error.
(** [fluent.New], of the configuration in full. *)
Variable fluent_New : fluent_Config_full -> Fluent Entry + error.
Variable encoder : zap.Encoder Field.
Variable tie_done : bool.
Variable Getenv : string -> string.
Variable time_ParseDuration : string -> Z + error.

(** The configuration [cfg] with the common fields [c]. *)
Definition with_common (cfg : fluent_Config_full) (c : fluent_Config)
    : fluent_Config_full :=
  {| common := c;
     ForceStopAsyncSend := ForceStopAsyncSend cfg;
     SubSecondPrecision := SubSecondPrecision cfg;
     MarshalAsJSON := MarshalAsJSON cfg; RequestAck := RequestAck cfg;
     TlsInsecureSkipVerify := TlsInsecureSkipVerify cfg;
     AsyncReconnectInterval := AsyncReconnectInterval cfg |}.

(** [main] up to [defer logger.Close()]: the configuration is read from the
    environment and the logger built from it with the level "DEBUG"; either
    failure panics with the error wrapped ([inr]). *)
Definition startup (w : World Entry)
    : (Atomic.SugaredLogger Entry Field * Atomic.Store Entry) + error :=
  match loadFluentConfigFromEnv Getenv time_ParseDuration with
  | (_, Some err) => inr (fmt_Errorf "failed to create wrapped logger" err)
  | (fluentCfg, None) =>
      let loggerCfg :=
        {| Atomic.FluentConfig := common fluentCfg; Atomic.Tag := "";
           Atomic.LogLevel := "DEBUG" |} in
      match
        Atomic.NewSugaredLogger json_Unmarshal
          (fun c => fluent_New (with_common fluentCfg c)) encoder tie_done loggerCfg w
      with
      | (_, inr err) => inr (fmt_Errorf "failed to create logger" err)
      | (_, inl logger) => inl logger
      end
  end.

End Main.

End Worker.

(** ** The metrics program *)

Module Metrics.

Section Main.

Variables (Entry Field : Type).
Variable json_Unmarshal : bytes -> Entry + error.
Variable fluent_New : fluent_Config -> Fluent Entry + error.
Variable encoder : zap.Encoder Field.
Variable Getenv : string -> string.

(** [func getEnv(key, defaultValue string) string] *)
Definition getEnv (key defaultValue : string) : string :=
  let value := Getenv key in
  if value =? "" then defaultValue else value.

(** The [observability.FluentConfig] [main] builds; the errors of
    [strconv.Atoi] and [strconv.ParseBool] are dropped ([v, _ := ...]). *)
Definition config : Mutex.FluentConfig :=
  let fluentHost := getEnv "FLUENT_HOST" "fluentbit" in
  let fluentPort := fst (strconv.Atoi (getEnv "FLUENT_PORT" "24224")) in
  let async := fst (strconv.ParseBool (getEnv "FLUENT_ASYNC" "true")) in
  let bufferLimit := fst (strconv.Atoi (getEnv "FLUENT_BUFFER_LIMIT" "8192")) in
  let maxRetry := fst (strconv.Atoi (getEnv "FLUENT_MAX_RETRY" "13")) in
  let retryWait := fst (strconv.Atoi (getEnv "FLUENT_RETRY_WAIT" "500")) in
  {| Mutex.Tag := "service.metrics";
     Mutex.Timeout_ := 10 * Second;
     Mutex.Fluent_ :=
       {| FluentNetwork := ""; FluentHost := fluentHost; FluentPort := fluentPort;
          FluentSocketPath := ""; Timeout := 0; WriteTimeout := 0;
          BufferLimit := bufferLimit; RetryWait := retryWait; MaxRetry := maxRetry;
          Async := async; TagPrefix := "" |} |}.

(** [main] up to [defer logger.Close()]. *)
Definition startup (w : World Entry)
    : (Mutex.WrappedLogger Entry Field * Mutex.Store Entry) + error :=
  match Mutex.NewWrappedLogger json_Unmarshal fluent_New encoder config w with
  | inr err => inr (fmt_Errorf "failed to create logger" err)
  | inl logger => inl logger
  end.

End Main.

End Metrics.

(** * The worker's configuration *)

Section WorkerFacts.

Variable time_ParseDuration : string -> Z + error.

Local Abbreviation load env := (Worker.load env time_ParseDuration).

(** Splits the first step of a successful run [H : ... = inl _]. *)
Ltac step_of H :=
  match type of H with
  | try ?r _ = inl _ =>
      let E := fresh "E" in
      destruct r as [?|?] eqn:E; [cbn [try] in H | discriminate H]
  end.

(** What a successful [load] returns, step by step. *)
Lemma load_inversion (env : string -> string) (cfg : fluent_Config_full) :
  load env = inl cfg ->
  let network := if env "FLUENT_NETWORK" =? "" then "tcp" else env "FLUENT_NETWORK" in
  Worker.known_network network = true /\
  FluentNetwork (common cfg) = network /\
  RetryWait (common cfg) = 500 /\ MaxRetry (common cfg) = 13 /\
  TagPrefix (common cfg) = env "FLUENT_TAG_PREFIX" /\
  Worker.duration env time_ParseDuration "FLUENT_TIMEOUT" (10 * Second) "invalid Timeout"
  = inl (Timeout (common cfg)) /\
  Worker.boolean env "FLUENT_ASYNC" = inl (Async (common cfg)) /\
  (if network =? "unix"
   then env "FLUENT_SOCKET_PATH" <> "" /\
        FluentSocketPath (common cfg) = env "FLUENT_SOCKET_PATH" /\
        FluentHost (common cfg) = "127.0.0.1" /\ FluentPort (common cfg) = 24224
   else FluentSocketPath (common cfg) = "" /\
        FluentHost (common cfg)
        = (if env "FLUENT_HOST" =? "" then "127.0.0.1" else env "FLUENT_HOST") /\
        Worker.integer env "FLUENT_PORT" 24224 "invalid FluentPort"
        = inl (FluentPort (common cfg))).
Proof.
  intros H network. unfold Worker.load in H. fold network in H.
  destruct (Worker.known_network network) eqn:K; [|discriminate H].
  cbn [negb] in H.
  step_of H. destruct p as [[socketPath host] port].
  do 10 step_of H.
  injection H as <-. cbn [common FluentNetwork RetryWait MaxRetry TagPrefix Timeout
                          Async FluentSocketPath FluentHost FluentPort].
  repeat (split; [reflexivity|]).
  destruct (network =? "unix") eqn:U.
  - destruct (env "FLUENT_SOCKET_PATH" =? "") eqn:S0; [discriminate E|].
    apply String.eqb_neq in S0. injection E as <- <- <-. auto.
  - unfold try in E.
    destruct (Worker.integer env "FLUENT_PORT" 24224 "invalid FluentPort")
      as [n|e] eqn:P; [|discriminate E].
    injection E as <- <- <-. auto.
Qed.

(** [os.Setenv(k, v)] on an environment. *)
Definition setenv (k v : string) (env : string -> string) : string -> string :=
  fun k' => if k' =? k then v else env k'.

(** Proves that a variable is one of [Worker.variables]. *)
Ltac is_variable :=
  unfold Worker.variables; simpl; repeat (first [left; reflexivity | right]).

Lemma load_frame (env1 env2 : string -> string) :
  (forall k, In k Worker.variables -> env1 k = env2 k) ->
  load env1 = load env2.
Proof.
  intros H.
  unfold Worker.load, Worker.integer, Worker.duration, Worker.boolean,
    Worker.parseBool.
  rewrite (H "FLUENT_NETWORK") by is_variable.
  rewrite (H "FLUENT_SOCKET_PATH") by is_variable.
  rewrite (H "FLUENT_HOST") by is_variable.
  rewrite (H "FLUENT_PORT") by is_variable.
  rewrite (H "FLUENT_TIMEOUT") by is_variable.
  rewrite (H "FLUENT_WRITE_TIMEOUT") by is_variable.
  rewrite (H "FLUENT_BUFFER_LIMIT") by is_variable.
  rewrite (H "FLUENT_ASYNC") by is_variable.
  rewrite (H "FLUENT_FORCE_STOP_ASYNC_SEND") by is_variable.
  rewrite (H "FLUENT_SUB_SECOND_PRECISION") by is_variable.
  rewrite (H "FLUENT_MARSHAL_AS_JSON") by is_variable.
  rewrite (H "FLUENT_REQUEST_ACK") by is_variable.
  rewrite (H "FLUENT_TLS_INSECURE_SKIP_VERIFY") by is_variable.
  rewrite (H "FLUENT_ASYNC_RECONNECT_INTERVAL") by is_variable.
  rewrite (H "FLUENT_TAG_PREFIX") by is_variable.
  reflexivity.
Qed.

Lemma setenv_other (k v : string) (env : string -> string) :
  ~ In k Worker.variables ->
  forall k', In k' Worker.variables -> setenv k v env k' = env k'.
Proof.
  intros N k' I. unfold setenv.
  destruct (k' =? k) eqn:E; [|reflexivity].
  apply String.eqb_eq in E. subst. contradiction.
Qed.

(** X10. A configuration [loadFluentConfigFromEnv] returns has a network
    that is "tcp", "tls" or "unix" ("tcp" when the variable is unset).  With
    "unix" it has a socket path that is not empty and the default host and
    port: FLUENT_HOST and FLUENT_PORT are not looked at, so that a
    FLUENT_PORT that is no number is no error.  With another network the
    socket path is empty and FLUENT_SOCKET_PATH is not looked at.  A network
    that is none of the three is rejected with the zero configuration, and
    so is "unix" without a socket path. *)
Theorem load_validates_endpoint :
  (forall (env : string -> string) (cfg : fluent_Config_full),
     load env = inl cfg ->
     (FluentNetwork (common cfg) = "tcp" \/ FluentNetwork (common cfg) = "tls"
      \/ FluentNetwork (common cfg) = "unix") /\
     (FluentNetwork (common cfg) = "unix" ->
      FluentSocketPath (common cfg) = env "FLUENT_SOCKET_PATH" /\
      FluentSocketPath (common cfg) <> "" /\
      FluentHost (common cfg) = "127.0.0.1" /\ FluentPort (common cfg) = 24224) /\
     (FluentNetwork (common cfg) <> "unix" -> FluentSocketPath (common cfg) = "")) /\
  (forall (env : string -> string) (host port : string),
     env "FLUENT_NETWORK" = "unix" ->
     load (setenv "FLUENT_HOST" host (setenv "FLUENT_PORT" port env)) = load env) /\
  (forall (env : string -> string) (path : string),
     env "FLUENT_NETWORK" <> "unix" ->
     load (setenv "FLUENT_SOCKET_PATH" path env) = load env) /\
  (forall (env : string -> string),
     env "FLUENT_NETWORK" <> "" ->
     Worker.known_network (env "FLUENT_NETWORK") = false ->
     Worker.loadFluentConfigFromEnv env time_ParseDuration
     = (fluent_Config_zero,
        Some (errors_New ("invalid FluentNetwork: " ++ env "FLUENT_NETWORK")))) /\
  (forall (env : string -> string),
     env "FLUENT_NETWORK" = "unix" -> env "FLUENT_SOCKET_PATH" = "" ->
     Worker.loadFluentConfigFromEnv env time_ParseDuration
     = (fluent_Config_zero,
        Some (errors_New "FluentSocketPath required for unix network"))).
Proof.
  split; [|split; [|split; [|split]]].
  - intros env cfg H.
    destruct (load_inversion env H) as (K & N & _ & _ & _ & _ & _ & B).
    cbv zeta in K, N, B. rewrite <- N in K, B.
    split.
    + unfold Worker.known_network in K.
      destruct (FluentNetwork (common cfg) =? "tcp") eqn:E1;
        [apply String.eqb_eq in E1; now left|].
      destruct (FluentNetwork (common cfg) =? "tls") eqn:E2;
        [apply String.eqb_eq in E2; now (right; left)|].
      destruct (FluentNetwork (common cfg) =? "unix") eqn:E3;
        [apply String.eqb_eq in E3; now (right; right) | discriminate K].
    + split.
      * intros U. rewrite U in B. simpl in B.
        destruct B as (S1 & S2 & Hh & Hp). rewrite S2. auto.
      * intros U. apply String.eqb_neq in U. rewrite U in B. tauto.
  - intros env host port U. unfold Worker.load, setenv; simpl. now rewrite U.
  - intros env path U. unfold Worker.load, setenv; simpl.
    destruct (env "FLUENT_NETWORK" =? "") eqn:E0; [reflexivity|].
    apply String.eqb_neq in U. now rewrite U.
  - intros env N K. unfold Worker.loadFluentConfigFromEnv, Worker.load.
    apply String.eqb_neq in N. now rewrite N, K.
  - intros env U S0. unfold Worker.loadFluentConfigFromEnv, Worker.load.
    rewrite U, S0. reflexivity.
Qed.

(** X11. [loadFluentConfigFromEnv] reads the fifteen variables of
    [Worker.variables] and nothing else: two environments that agree on them
    give the same result.  FLUENT_MAX_RETRY and FLUENT_RETRY_WAIT are not
    among them: whatever they are set to changes nothing, and a
    configuration that is returned has MaxRetry 13 and RetryWait 500. *)
Theorem load_reads_only_its_variables :
  (forall env1 env2 : string -> string,
     (forall k, In k Worker.variables -> env1 k = env2 k) ->
     Worker.loadFluentConfigFromEnv env1 time_ParseDuration
     = Worker.loadFluentConfigFromEnv env2 time_ParseDuration) /\
  (forall (env : string -> string) (retries wait : string),
     Worker.loadFluentConfigFromEnv
       (setenv "FLUENT_MAX_RETRY" retries (setenv "FLUENT_RETRY_WAIT" wait env))
       time_ParseDuration
     = Worker.loadFluentConfigFromEnv env time_ParseDuration) /\
  (forall (env : string -> string) (cfg : fluent_Config_full),
     Worker.loadFluentConfigFromEnv env time_ParseDuration = (cfg, None) ->
     MaxRetry (common cfg) = 13 /\ RetryWait (common cfg) = 500).
Proof.
  split; [|split].
  - intros env1 env2 H. unfold Worker.loadFluentConfigFromEnv.
    now rewrite (load_frame env1 env2 H).
  - intros env retries wait. unfold Worker.loadFluentConfigFromEnv.
    rewrite (load_frame
               (setenv "FLUENT_MAX_RETRY" retries (setenv "FLUENT_RETRY_WAIT" wait env))
               env); [reflexivity|].
    intros k I.
    rewrite setenv_other; [apply setenv_other| |]; try exact I;
      unfold Worker.variables; simpl; intuition discriminate.
  - intros env cfg H. unfold Worker.loadFluentConfigFromEnv in H.
    destruct (load env) as [c|e] eqn:L; [|discriminate H].
    injection H as <-.
    destruct (load_inversion env L) as (_ & _ & R & M & _). auto.
Qed.

(** X12. [parseBool] takes a variable for true when it is "true" in any mix
    of case, for false when it is "false" in any mix of case or is not set,
    and rejects every other value (so "1", "t" and "yes" are errors). *)
Theorem parseBool_accepts (env : string -> string) (envVar : string) :
  (strings_ToLower (env envVar) = "true" ->
   Worker.parseBool env envVar = (true, None)) /\
  (strings_ToLower (env envVar) = "false" \/ env envVar = "" ->
   Worker.parseBool env envVar = (false, None)) /\
  (strings_ToLower (env envVar) <> "true" ->
   strings_ToLower (env envVar) <> "false" -> env envVar <> "" ->
   Worker.parseBool env envVar
   = (false, Some (errors_New ("invalid boolean value for " ++ envVar)))).
Proof.
  unfold Worker.parseBool. repeat split.
  - intros ->. reflexivity.
  - intros [-> | ->]; reflexivity.
  - intros T F N.
    apply String.eqb_neq in T, F. rewrite T, F.
    destruct (strings_ToLower (env envVar) =? "") eqn:E; [|reflexivity].
    apply String.eqb_eq in E. apply bytes_ToLower_empty in E. contradiction.
Qed.

End WorkerFacts.

(** * How the programs start *)

Lemma Atoi_syntax_error_gives_zero (s : string) (e : error) :
  snd (strconv.Atoi s) = Some e -> errors_Unwrap e = Some strconv.ErrSyntax ->
  fst (strconv.Atoi s) = 0.
Proof.
  unfold strconv.Atoi.
  destruct (match s with
            | String "-"%char r => (true, r)
            | String "+"%char r => (false, r)
            | _ => (false, s)
            end) as [neg body].
  destruct body as [|c r]; [reflexivity|].
  destruct (strconv.digits (String c r) 0) as [n|]; [|reflexivity].
  destruct (strconv.maxInt <? _)%Z; [simpl; intros [= <-]; discriminate|].
  destruct (_ <? strconv.minInt)%Z; [simpl; intros [= <-]; discriminate|].
  discriminate.
Qed.

Section StartupFacts.

Variables (Entry Field : Type).
Variable json_Unmarshal : bytes -> Entry + error.
Variable encoder : zap.Encoder Field.
Variable tie_done : bool.
Variable time_ParseDuration : string -> Z + error.

Lemma atomic_constructed_timeout
    (fluent_New : fluent_Config -> Fluent Entry + error)
    (cfg cfg' : Atomic.SugaredLoggerConfig) (w : World Entry)
    (h : Atomic.SugaredLogger Entry Field) (st : Atomic.Store Entry) :
  Atomic.NewSugaredLogger json_Unmarshal fluent_New encoder tie_done cfg w
  = (cfg', inl (h, st)) ->
  Atomic.timeout (Atomic.fluent st)
  = (if (Timeout (Atomic.FluentConfig cfg) =? 0)%Z then defaultShutdownTimeout
     else Timeout (Atomic.FluentConfig cfg)) /\
  Atomic.FluentConfig cfg'
  = (if (Timeout (Atomic.FluentConfig cfg) =? 0)%Z
     then fluent_Config_with_Timeout (Atomic.FluentConfig cfg) defaultShutdownTimeout
     else Atomic.FluentConfig cfg).
Proof.
  destruct cfg as [fc tg ll]. unfold Atomic.NewSugaredLogger; simpl.
  destruct (tg =? "") eqn:T; destruct (Timeout fc =? 0)%Z eqn:D; simpl;
    rewrite ?D; simpl;
    (destruct (fluent_New _) as [fl|e] eqn:N; [|discriminate]);
    intros E; injection E as <- <- <-; simpl; auto.
Qed.

(** X13. The worker's logger, when [main] gets as far as having one: its
    tag is "app.logs" and its level debug, so that no leveled call is
    filtered; its shutdown timeout is the transport's connection timeout,
    FLUENT_TIMEOUT: 10 s when the variable is not set, and 5 s when it is set
    to a zero duration; the transport is the one [fluent.New] returned for
    the configuration read from the environment, with that timeout. *)
Theorem worker_startup
    (fluent_New : fluent_Config_full -> Fluent Entry + error)
    (env : string -> string) (w : World Entry)
    (h : Atomic.SugaredLogger Entry Field) (st : Atomic.Store Entry) :
  Worker.startup json_Unmarshal fluent_New encoder tie_done env time_ParseDuration w
  = inl (h, st) ->
  exists cfg,
    Worker.load env time_ParseDuration = inl cfg /\
    Atomic.tag (Atomic.fluent st) = "app.logs" /\
    h = Atomic.new_handle json_Unmarshal encoder tie_done DebugLevel /\
    (forall l, zap.Enabled (Atomic.SugaredLogger_core h) l = true) /\
    Atomic.timeout (Atomic.fluent st)
    = (if (Timeout (common cfg) =? 0)%Z then 5000000000 else Timeout (common cfg)) /\
    (env "FLUENT_TIMEOUT" = "" -> Atomic.timeout (Atomic.fluent st) = 10000000000) /\
    Atomic.closed (Atomic.fluent st) = false /\
    Atomic.world st = w /\
    fluent_New
      (Worker.with_common cfg
         (if (Timeout (common cfg) =? 0)%Z
          then fluent_Config_with_Timeout (common cfg) 5000000000
          else common cfg))
    = inl (Atomic.logger (Atomic.fluent st)).
Proof.
  unfold Worker.startup, Worker.loadFluentConfigFromEnv.
  destruct (Worker.load env time_ParseDuration) as [cfg|e] eqn:L; [|discriminate].
  destruct (Atomic.NewSugaredLogger _ _ _ _ _ w) as [cfg' [[h' st']|e]] eqn:N;
    [|discriminate].
  intros E. injection E as <- <-.
  destruct (atomic_constructed _ _ _ _ _ _ N) as (H & _ & W & T & Hh & F).
  destruct (atomic_constructed_timeout _ _ _ N) as (Tm & Fc).
  simpl in T, Hh, Tm, Fc, F.
  exists cfg. split; [reflexivity|]. split; [exact T|].
  split; [exact Hh|]. split; [rewrite Hh; intros l; now destruct l|].
  split; [exact Tm|].
  split.
  - intros U. rewrite Tm.
    destruct (load_inversion time_ParseDuration env L) as (_ & _ & _ & _ & _ & D & _).
    unfold Worker.duration in D. rewrite U in D. simpl in D.
    injection D as D. rewrite <- D. reflexivity.
  - split; [exact H|]. split; [exact W|]. rewrite Fc in F. exact F.
Qed.

Lemma mutex_constructed_timeout
    (fluent_New : fluent_Config -> Fluent Entry + error)
    (cfg : Mutex.FluentConfig) (w : World Entry)
    (h : Mutex.WrappedLogger Entry Field) (st : Mutex.Store Entry) :
  Mutex.NewWrappedLogger json_Unmarshal fluent_New encoder cfg w = inl (h, st) ->
  Mutex.timeout (Mutex.fluent st)
  = (if (Mutex.Timeout_ cfg =? 0)%Z then defaultShutdownTimeout else Mutex.Timeout_ cfg).
Proof.
  destruct cfg as [fc tg tm]. unfold Mutex.NewWrappedLogger; simpl.
  destruct (tg =? "") eqn:T; destruct (tm =? 0)%Z eqn:D; simpl;
    rewrite ?D; simpl;
    (destruct (fluent_New _) as [fl|e] eqn:N; [|discriminate]);
    intros E; injection E as <- <-; simpl; auto.
Qed.

Lemma mutex_construction_fails
    (fluent_New : fluent_Config -> Fluent Entry + error)
    (cfg : Mutex.FluentConfig) (w : World Entry) (err : error) :
  Mutex.NewWrappedLogger json_Unmarshal fluent_New encoder cfg w = inr err ->
  exists e, fluent_New (Mutex.Fluent_ cfg) = inr e /\
            err = fmt_Errorf "failed to create fluent logger" e.
Proof.
  destruct cfg as [fc tg tm]. unfold Mutex.NewWrappedLogger; simpl.
  destruct (tg =? "") eqn:T; destruct (tm =? 0)%Z eqn:D; simpl;
    rewrite ?D; simpl;
    (destruct (fluent_New _) as [fl|e] eqn:N; [discriminate|]);
    intros E; injection E as <-; exists e; auto.
Qed.

(** X14. The metrics program never refuses its environment.  Its logger
    has the tag "service.metrics", the timeout 10 s and the level info
    whatever the variables are; a variable that is not set gives the default
    of [getEnv], and a FLUENT_PORT (as FLUENT_BUFFER_LIMIT, FLUENT_MAX_RETRY
    and FLUENT_RETRY_WAIT) that is set but is no number gives 0, not the
    default and not an error.  [main] fails only when [fluent.New] does. *)
Theorem metrics_startup
    (fluent_New : fluent_Config -> Fluent Entry + error)
    (env : string -> string) (w : World Entry) :
  let cfg := Metrics.config env in
  Mutex.Tag cfg = "service.metrics" /\ Mutex.Timeout_ cfg = 10000000000 /\
  (env "FLUENT_PORT" = "" -> FluentPort (Mutex.Fluent_ cfg) = 24224) /\
  (env "FLUENT_HOST" = "" -> FluentHost (Mutex.Fluent_ cfg) = "fluentbit") /\
  (env "FLUENT_ASYNC" = "" -> Async (Mutex.Fluent_ cfg) = true) /\
  (forall e, env "FLUENT_PORT" <> "" ->
             snd (strconv.Atoi (env "FLUENT_PORT")) = Some e ->
             errors_Unwrap e = Some strconv.ErrSyntax ->
             FluentPort (Mutex.Fluent_ cfg) = 0) /\
  (forall e, env "FLUENT_MAX_RETRY" <> "" ->
             snd (strconv.Atoi (env "FLUENT_MAX_RETRY")) = Some e ->
             errors_Unwrap e = Some strconv.ErrSyntax ->
             MaxRetry (Mutex.Fluent_ cfg) = 0) /\
  match Metrics.startup json_Unmarshal fluent_New encoder env w with
  | inl (h, st) =>
      Mutex.tag (Mutex.fluent st) = "service.metrics" /\
      Mutex.timeout (Mutex.fluent st) = 10000000000 /\
      h = Mutex.new_handle json_Unmarshal encoder /\
      Mutex.closed (Mutex.fluent st) = false /\
      Mutex.world st = w /\
      fluent_New (Mutex.Fluent_ cfg) = inl (Mutex.logger (Mutex.fluent st))
  | inr err =>
      exists e, fluent_New (Mutex.Fluent_ cfg) = inr e /\
                err = fmt_Errorf "failed to create logger"
                        (fmt_Errorf "failed to create fluent logger" e)
  end.
Proof.
  intros cfg. split; [reflexivity|]. split; [reflexivity|].
  split; [intros U; unfold cfg, Metrics.config, Metrics.getEnv; simpl;
          now rewrite U|].
  split; [intros U; unfold cfg, Metrics.config, Metrics.getEnv; simpl;
          now rewrite U|].
  split; [intros U; unfold cfg, Metrics.config, Metrics.getEnv; simpl;
          now rewrite U|].
  split.
  { intros e N S1 U1.
    unfold cfg, Metrics.config, Metrics.getEnv; simpl.
    apply String.eqb_neq in N. rewrite N.
    now apply (Atoi_syntax_error_gives_zero _ S1). }
  split.
  { intros e N S1 U1.
    unfold cfg, Metrics.config, Metrics.getEnv; simpl.
    apply String.eqb_neq in N. rewrite N.
    now apply (Atoi_syntax_error_gives_zero _ S1). }
  unfold Metrics.startup. fold cfg.
  destruct (Mutex.NewWrappedLogger json_Unmarshal fluent_New encoder cfg w)
    as [[h st]|err] eqn:N.
  - assert (Tm := mutex_constructed_timeout _ _ _ N).
    apply mutex_constructed in N. destruct N as (_ & H & _ & W & T & Hh & F).
    simpl in T, Tm. auto 7.
  - destruct (mutex_construction_fails _ _ _ N) as (e & F & ->).
    exists e. auto.
Qed.

End StartupFacts.

(** * The further properties on concrete runs *)

Module Sample.

(** A duration parser that knows two durations. *)
Definition ParseDuration (s : string) : Z + error :=
  if s =? "50ms" then inl 50000000
  else if s =? "0s" then inl 0
  else inr (errors_New "time: invalid duration").

Definition no_variables : string -> string := fun _ => "".

(** A unix socket, with a FLUENT_PORT that is no number. *)
Definition unix_socket : string -> string :=
  setenv "FLUENT_NETWORK" "unix"
    (setenv "FLUENT_SOCKET_PATH" "/run/fluent.sock"
       (setenv "FLUENT_PORT" "none" no_variables)).

(** The environment of compose.yaml. *)
Definition compose : string -> string :=
  setenv "FLUENT_HOST" "fluentbit"
    (setenv "FLUENT_PORT" "24224"
       (setenv "FLUENT_ASYNC" "true"
          (setenv "FLUENT_BUFFER_LIMIT" "8192"
             (setenv "FLUENT_MAX_RETRY" "13"
                (setenv "FLUENT_RETRY_WAIT" "500" no_variables))))).

Definition zero_timeout : string -> string :=
  setenv "FLUENT_TIMEOUT" "0s" no_variables.

Definition port_by_name : string -> string :=
  setenv "FLUENT_PORT" "http" (setenv "FLUENT_MAX_RETRY" "many" no_variables).

Definition loaded (env : string -> string) : fluent_Config_full :=
  fst (Worker.loadFluentConfigFromEnv env ParseDuration).

Definition fluent_New_full (cfg : fluent_Config_full) : Fluent Fake.Entry + error :=
  Fake.fluent_New None (Finishes 10 None) (common cfg).

(** An open atomic sink whose transport fails to close, at once. *)
Definition atomic_refusing : Atomic.Store Fake.Entry :=
  Fake.atomic_store None (Finishes 10 (Some Fake.refused)) (50 * Millisecond).

Definition atomic_config : Atomic.SugaredLoggerConfig :=
  {| Atomic.FluentConfig := Fake.config 0; Atomic.Tag := "";
     Atomic.LogLevel := "warn" |}.

Definition mutex_config : Mutex.FluentConfig :=
  {| Mutex.Fluent_ := Fake.config 0; Mutex.Tag := "service.metrics";
     Mutex.Timeout_ := 0 |}.

(** The logger each constructor returns on these configurations. *)
Definition atomic_built : Atomic.SugaredLogger Fake.Entry Fake.Field * Atomic.Store Fake.Entry :=
  match
    snd (Atomic.NewSugaredLogger Fake.json_Unmarshal
           (Fake.fluent_New None (Finishes 10 None)) Fake.encoder true
           atomic_config Fake.world0)
  with
  | inl logger => logger
  | inr _ => (Fake.atomic_handle DebugLevel, Fake.atomic_quick)
  end.

Definition mutex_built : Mutex.WrappedLogger Fake.Entry Fake.Field * Mutex.Store Fake.Entry :=
  match
    Mutex.NewWrappedLogger Fake.json_Unmarshal
      (Fake.fluent_New None (Finishes 10 None)) Fake.encoder mutex_config Fake.world0
  with
  | inl logger => logger
  | inr _ => (Fake.mutex_handle, Fake.mutex_quick)
  end.

Definition worker_started : Atomic.SugaredLogger Fake.Entry Fake.Field * Atomic.Store Fake.Entry :=
  match
    Worker.startup Fake.json_Unmarshal fluent_New_full Fake.encoder true
      zero_timeout ParseDuration Fake.world0
  with
  | inl logger => logger
  | inr _ => (Fake.atomic_handle DebugLevel, Fake.atomic_quick)
  end.

End Sample.

Lemma Write_posts_the_decoded_record_witness :
  trace (Mutex.world (snd (Mutex.FluentLogger_Write Fake.json_Unmarshal Fake.hello
                             Fake.mutex_quick)))
  = [EvPost "app.logs" 0 Fake.hello] /\
  trace (Mutex.world (snd (Mutex.FluentLogger_Write Fake.json_Unmarshal Fake.garbage
                             Fake.mutex_quick)))
  = [].
Proof.
  destruct (@Write_posts_the_decoded_record _ Fake.json_Unmarshal) as [_ M].
  split.
  - destruct (M Fake.hello Fake.mutex_quick eq_refl) as (T & _). exact T.
  - destruct (M Fake.garbage Fake.mutex_quick eq_refl) as (T & _). exact T.
Defined.

Lemma atomic_Sync_hides_close_error_witness :
  exists st',
    Atomic.FluentLogger_Sync true Sample.atomic_refusing = (Returns None, st') /\
    In (EvCloseDone (Some Fake.refused)) (trace (Atomic.world st')).
Proof.
  destruct (@atomic_Sync_hides_close_error Fake.Entry true) as [_ A].
  exact (A Sample.atomic_refusing 10%N Fake.refused eq_refl eq_refl eq_refl).
Defined.

Lemma atomic_Close_on_built_handle_witness :
  exists r st',
    Atomic.SugaredLogger_Close true (Some (Fake.atomic_handle WarnLevel)) Fake.atomic_hung
    = (Returns r, st') /\
    (r = None \/ r = Some (fmt_Errorf "zap sync failed" errFlushTimedOut)) /\
    Atomic.closeOnce st' = OnceDone /\
    (now (Atomic.world st') <= 50000000)%Z.
Proof.
  destruct (@atomic_Close_on_built_handle _ _ Fake.json_Unmarshal Fake.encoder true
              WarnLevel Fake.atomic_hung ltac:(discriminate))
    as (r & st' & E & R & O & _ & _ & T).
  exists r, st'. auto.
Defined.

Lemma mutex_hung_close_blocks_the_sink_witness :
  exists st',
    Mutex.FluentLogger_Sync Fake.mutex_hung = (Blocks, st') /\
    Mutex.FluentLogger_Write Fake.json_Unmarshal Fake.hello st' = (Blocks, st') /\
    fst (Mutex.WrappedLogger_Close (Some Fake.mutex_handle) Fake.mutex_hung) = Blocks.
Proof.
  destruct (@mutex_hung_close_blocks_the_sink _ _ Fake.json_Unmarshal Fake.encoder
              Fake.mutex_hung eq_refl eq_refl eq_refl)
    as (st' & S & _ & _ & W & _ & _ & C).
  exists st'. split; [exact S|]. split; [exact (W Fake.hello)|].
  exact (proj1 (C eq_refl)).
Defined.

Lemma log_above_error_level_closes_the_sink_witness :
  exists st',
    zap.log (@Atomic.clock Fake.Entry)
      (Atomic.SugaredLogger_core (Fake.atomic_handle DebugLevel))
      DPanicLevel "unexpected" [] Fake.atomic_quick = (Returns tt, st') /\
    Atomic.closed (Atomic.fluent st') = true /\
    closes (Atomic.world st') = 1%nat.
Proof.
  destruct (@log_above_error_level_closes_the_sink _ _ Fake.json_Unmarshal
              Fake.encoder true DebugLevel "unexpected" [] Fake.atomic_quick
              [Byte.x7b; Byte.x7d] [Byte.x7b; Byte.x7d]
              eq_refl eq_refl eq_refl eq_refl eq_refl)
    as (st' & L & H & C & _).
  exists st'. auto.
Defined.

Lemma constructed_logger_first_write_witness :
  trace (Atomic.world
           (snd (Atomic.FluentLogger_Write Fake.json_Unmarshal Fake.hello
                   (snd Sample.atomic_built))))
  = [EvPost "app.logs" 0 Fake.hello] /\
  trace (Mutex.world
           (snd (Mutex.FluentLogger_Write Fake.json_Unmarshal Fake.hello
                   (snd Sample.mutex_built))))
  = [EvPost "service.metrics" 0 Fake.hello].
Proof.
  destruct (@constructed_logger_first_write _ _ Fake.json_Unmarshal
              (Fake.fluent_New None (Finishes 10 None)) Fake.encoder true) as [A M].
  split.
  - destruct (A Sample.atomic_config
                (fst (Atomic.NewSugaredLogger Fake.json_Unmarshal
                        (Fake.fluent_New None (Finishes 10 None)) Fake.encoder true
                        Sample.atomic_config Fake.world0))
                Fake.world0 (fst Sample.atomic_built) (snd Sample.atomic_built)
                Fake.hello Fake.hello eq_refl eq_refl) as (T & _).
    exact T.
  - destruct (M Sample.mutex_config Fake.world0
                (fst Sample.mutex_built) (snd Sample.mutex_built)
                Fake.hello Fake.hello eq_refl eq_refl) as (T & _).
    exact T.
Defined.



Lemma load_validates_endpoint_witness :
  FluentNetwork (common (Sample.loaded Sample.unix_socket)) = "unix" /\
  FluentSocketPath (common (Sample.loaded Sample.unix_socket)) = "/run/fluent.sock" /\
  FluentPort (common (Sample.loaded Sample.unix_socket)) = 24224 /\
  FluentSocketPath (common (Sample.loaded Sample.compose)) = "" /\
  Worker.loadFluentConfigFromEnv
    (setenv "FLUENT_NETWORK" "udp" Sample.no_variables) Sample.ParseDuration
  = (fluent_Config_zero, Some (errors_New "invalid FluentNetwork: udp")).
Proof.
  destruct (load_validates_endpoint Sample.ParseDuration) as (V & _ & _ & R & _).
  destruct (V Sample.unix_socket (Sample.loaded Sample.unix_socket) eq_refl)
    as (_ & U & _).
  destruct (U eq_refl) as (S1 & _ & _ & P).
  destruct (V Sample.compose (Sample.loaded Sample.compose) eq_refl) as (_ & _ & T).
  split; [reflexivity|]. split; [exact S1|]. split; [exact P|].
  split; [apply T; discriminate|].
  apply (R (setenv "FLUENT_NETWORK" "udp" Sample.no_variables));
    [discriminate | reflexivity].
Defined.

Lemma load_reads_only_its_variables_witness :
  Worker.loadFluentConfigFromEnv Sample.compose Sample.ParseDuration
  = Worker.loadFluentConfigFromEnv
      (setenv "FLUENT_HOST" "fluentbit"
         (setenv "FLUENT_PORT" "24224" (setenv "FLUENT_ASYNC" "true"
            (setenv "FLUENT_BUFFER_LIMIT" "8192" Sample.no_variables))))
      Sample.ParseDuration /\
  MaxRetry (common (Sample.loaded Sample.compose)) = 13.
Proof.
  destruct (load_reads_only_its_variables Sample.ParseDuration) as (F & _ & M).
  split.
  - apply F. intros k I. unfold Worker.variables in I. simpl in I.
    repeat (destruct I as [<- | I]; [reflexivity|]). contradiction.
  - exact (proj1 (M Sample.compose (Sample.loaded Sample.compose) eq_refl)).
Defined.

Lemma parseBool_accepts_witness :
  Worker.parseBool (setenv "FLUENT_ASYNC" "True" Sample.no_variables) "FLUENT_ASYNC"
  = (true, None) /\
  Worker.parseBool Sample.no_variables "FLUENT_ASYNC" = (false, None) /\
  Worker.parseBool (setenv "FLUENT_ASYNC" "1" Sample.no_variables) "FLUENT_ASYNC"
  = (false, Some (errors_New "invalid boolean value for FLUENT_ASYNC")).
Proof.
  split; [|split].
  - exact (proj1 (parseBool_accepts
                    (setenv "FLUENT_ASYNC" "True" Sample.no_variables) "FLUENT_ASYNC")
             eq_refl).
  - exact (proj1 (proj2 (parseBool_accepts Sample.no_variables "FLUENT_ASYNC"))
             (or_intror eq_refl)).
  - apply (proj2 (proj2 (parseBool_accepts
                           (setenv "FLUENT_ASYNC" "1" Sample.no_variables)
                           "FLUENT_ASYNC"))); discriminate.
Defined.

Lemma worker_startup_witness :
  Atomic.tag (Atomic.fluent (snd Sample.worker_started)) = "app.logs" /\
  Atomic.timeout (Atomic.fluent (snd Sample.worker_started)) = 5000000000 /\
  (forall l, zap.Enabled (Atomic.SugaredLogger_core (fst Sample.worker_started)) l = true).
Proof.
  destruct (@worker_startup _ _ Fake.json_Unmarshal Fake.encoder true
              Sample.ParseDuration Sample.fluent_New_full Sample.zero_timeout
              Fake.world0 (fst Sample.worker_started) (snd Sample.worker_started)
              eq_refl)
    as (cfg & L & T & _ & E & Tm & _).
  injection L as <-.
  split; [exact T|]. split; [exact Tm | exact E].
Defined.

Lemma metrics_startup_witness :
  FluentPort (Mutex.Fluent_ (Metrics.config Sample.port_by_name)) = 0 /\
  MaxRetry (Mutex.Fluent_ (Metrics.config Sample.port_by_name)) = 0 /\
  FluentPort (Mutex.Fluent_ (Metrics.config Sample.no_variables)) = 24224.
Proof.
  destruct (@metrics_startup _ Fake.Field Fake.json_Unmarshal Fake.encoder
              (Fake.fluent_New None (Finishes 10 None)) Sample.port_by_name Fake.world0)
    as (_ & _ & _ & _ & _ & P & M & _).
  destruct (@metrics_startup _ Fake.Field Fake.json_Unmarshal Fake.encoder
              (Fake.fluent_New None (Finishes 10 None)) Sample.no_variables Fake.world0)
    as (_ & _ & D & _).
  split; [|split].
  - apply (P (strconv.NumError "Atoi" "http" strconv.ErrSyntax));
      [discriminate | reflexivity | reflexivity].
  - apply (M (strconv.NumError "Atoi" "many" strconv.ErrSyntax));
      [discriminate | reflexivity | reflexivity].
  - exact (D eq_refl).
Defined.

Lemma atomic_Sync_nil_leaves_nothing_running_witness :
  goroutines (Atomic.world Fake.atomic_quick_synced) = [] /\
  trace (Atomic.world Fake.atomic_quick_synced) = [EvClose; EvCloseDone None].
Proof.
  destruct (@atomic_Sync_nil_leaves_nothing_running Fake.Entry true
              Fake.atomic_quick Fake.atomic_quick_synced eq_refl eq_refl eq_refl)
    as (G & d & r & R & _ & T & _).
  split; [exact G|]. injection R as <- <-. exact T.
Defined.


Lemma atomic_Sync_races_timer_witness :
  exists st',
    Atomic.FluentLogger_Sync true Fake.atomic_slow
    = (Returns (Some errFlushTimedOut), st') /\
    now (Atomic.world st') = 50000000 /\
    In (closing 1000000000 None) (goroutines (Atomic.world st')) /\
    In (EvCloseDone None) (trace (elapse 950000000 (Atomic.world st'))).
Proof.
  destruct (@atomic_Sync_races_timer Fake.Entry true Fake.atomic_slow eq_refl)
    as [_ T].
  destruct (T eq_refl) as (st' & E & N & _ & _ & F).
  destruct (F 1000000000%N None eq_refl eq_refl) as (G & D).
  exists st'. split; [exact E|]. split; [exact N|]. split; [exact G | exact D].
Defined.

Lemma parseLogLevel_case_invariant_witness :
  parseLogLevel "WARNING" = parseLogLevel "Warning" /\
  parseLogLevel "error" = parseLogLevel "Error".
Proof.
  destruct (parseLogLevel_case_invariant "Warning" eq_refl) as [U _].
  destruct (parseLogLevel_case_invariant "Error" eq_refl) as [_ L].
  split; [exact U | exact L].
Defined.
